(** * Pro-Finance planning core: tax, projection, inflation and debt engines

    A shallow embedding of the calculation engines of the JavaScript sources
    [js/engines/monte-carlo.js] (objects [MonteCarlo] and [TaxCalculator]) and
    [js/engines/inflation.js] (objects [Inflation] and [DebtSnowball]),
    followed by the properties established about them.

    Numbers.  The engines compute on IEEE doubles.  The embedding computes on
    exact rationals [Q]: every statement below is about the arithmetic the
    code writes down, not about its rounding error.  The places where a
    JavaScript number stops being an ordinary number (a division by zero, a
    read past the end of an array) are kept visible through [jsnum].

    A value that a loop carries from one turn to the next is stored in lowest
    terms ([Qred]).  [Qred] does not change the number ([Qred_correct]); it
    keeps the fractions small enough for the loops to be evaluated. *)

From Stdlib Require Import QArith Qminmax Qround Qpower ZArith List Bool Lia Lqa.
From Stdlib Require Import String Permutation Morphisms Sorted.
Import ListNotations.

Local Open Scope Q_scope.

(** ** JavaScript numeric primitives *)

Module JS.

(** [a < b] on numbers. *)
Definition Qlt_bool (x y : Q) : bool := negb (Qle_bool y x).

(** [Math.round]: the nearest integer, halves going up. *)
Definition round (x : Q) : Z := Qfloor (x + (1 # 2)).

(** [Math.floor]. *)
Definition floor (x : Q) : Z := Qfloor x.

(** A number as a property of a result object can hold it: an ordinary
    number, one of the two infinities, or [NaN]. *)
Inductive jsnum : Type :=
| Num (q : Q)
| PosInf
| NegInf
| NaN.

(** [a / b] on two ordinary numbers. *)
Definition div (a b : Q) : jsnum :=
  if Qeq_bool b 0 then
    if Qeq_bool a 0 then NaN
    else if Qlt_bool 0 a then PosInf else NegInf
  else Num (a / b).

(** [Math.round] on a possibly special number. *)
Definition round_num (x : jsnum) : jsnum :=
  match x with
  | Num q => Num (inject_Z (round q))
  | other => other
  end.

(** [Math.max(0, x)]. *)
Definition max0 (x : jsnum) : jsnum :=
  match x with
  | Num q => Num (Qmax 0 q)
  | PosInf => PosInf
  | NegInf => Num 0
  | NaN => NaN
  end.

(** [x * k] and [x / k] for an ordinary non-zero constant [k > 0]. *)
Definition scale (x : jsnum) (k : Q) : jsnum :=
  match x with
  | Num q => Num (q * k)
  | other => other
  end.

(** The value of a destructured property with a default: the default is
    taken when the property is absent. *)
Definition dflt {A : Type} (o : option A) (d : A) : A :=
  match o with
  | Some v => v
  | None => d
  end.

(** [x] is the ordinary number [q]. *)
Definition is_num (x : jsnum) (q : Q) : Prop :=
  match x with
  | Num q' => q' == q
  | _ => False
  end.

(** [x] is an ordinary (finite, non-NaN) number. *)
Definition finite (x : jsnum) : Prop :=
  match x with
  | Num _ => True
  | _ => False
  end.

(** [Math.pow] is not a rational function of its arguments.  The engines
    only rely on the facts below, which [Math.pow] has on finite
    arguments. *)
Class MathPow : Type := {
  pow : Q -> Q -> Q;
  pow_proper : Proper (Qeq ==> Qeq ==> Qeq) pow;
  pow_pos : forall b y, 0 < b -> 0 < pow b y;
  pow_one : forall y, pow 1 y == 1
}.

(** An array sort with a numeric comparator [cmp]: [a] is placed before [b]
    when [cmp a b <= 0]; the sort is stable. *)
Section Sort.
Context {A : Type} (cmp : A -> A -> Q).

Fixpoint insert (x : A) (l : list A) : list A :=
  match l with
  | [] => [x]
  | y :: l' => if Qle_bool (cmp x y) 0 then x :: y :: l' else y :: insert x l'
  end.

Definition sort (l : list A) : list A := fold_right insert [] l.
End Sort.

End JS.

(** ** Tax calculator ([TaxCalculator] in monte-carlo.js) *)

Module TaxCalculator.
Import JS.

(** The upper end of a slab: a number or [Infinity]. *)
Inductive bound : Type :=
| Finite (q : Q)
| Infinity.

Record Slab : Type := { min : Q; max : bound; rate : Q }.

Record Rebate : Type := { limit : Q; maxRebate : Q }.

Record SlabConfig : Type := {
  slabs : list Slab;
  standardDeduction : Q;
  rebate87A : Rebate
}.

(** The keys of [taxSlabs]. *)
Inductive Regime : Type := new | old.

(** [taxSlabs]: FY 2025-26. *)
Definition taxSlabs (r : Regime) : SlabConfig :=
  match r with
  | new =>
      {| slabs :=
           [ {| min := 0; max := Finite 400000; rate := 0 |};
             {| min := 400000; max := Finite 800000; rate := 5 |};
             {| min := 800000; max := Finite 1200000; rate := 10 |};
             {| min := 1200000; max := Finite 1600000; rate := 15 |};
             {| min := 1600000; max := Finite 2000000; rate := 20 |};
             {| min := 2000000; max := Finite 2400000; rate := 25 |};
             {| min := 2400000; max := Infinity; rate := 30 |} ];
         standardDeduction := 75000;
         rebate87A := {| limit := 700000; maxRebate := 25000 |} |}
  | old =>
      {| slabs :=
           [ {| min := 0; max := Finite 250000; rate := 0 |};
             {| min := 250000; max := Finite 500000; rate := 5 |};
             {| min := 500000; max := Finite 1000000; rate := 20 |};
             {| min := 1000000; max := Infinity; rate := 30 |} ];
         standardDeduction := 50000;
         rebate87A := {| limit := 500000; maxRebate := 12500 |} |}
  end.

Definition section80CLimit : Q := 150000.
Definition section80D_self : Q := 25000.
Definition section80D_parents : Q := 25000.
Definition ltcgExemption : Q := 125000.
Definition ltcgRate : Q := 125 # 10.
Definition stcgRate : Q := 20.
Definition homeLoan_interestUnder24b : Q := 200000.

(** The argument object of [calculateTax]; an absent property is [None]. *)
Record Params : Type := {
  grossIncome : option Q;
  regime : option Regime;
  deductions80C : option Q;
  deductions80D : option Q;
  deductions80CCD : option Q;
  homeLoanInterest : option Q;
  hra : option Q;
  ltcg : option Q;
  stcg : option Q
}.

(** The object [{}]. *)
Definition no_params : Params :=
  {| grossIncome := None; regime := None; deductions80C := None;
     deductions80D := None; deductions80CCD := None;
     homeLoanInterest := None; hra := None; ltcg := None; stcg := None |}.

Record Deductions : Type := {
  d_standardDeduction : Q;
  d_section80C : option Q;
  d_section80D : option Q;
  d_section80CCD : option Q;
  d_homeLoanInterest : option Q
}.

Record Breakdown : Type := {
  b_grossIncome : Q;
  deductions : Deductions;
  exemptions_hra : option Q;
  taxableIncome : Q;
  b_rebate87A : option Q
}.

Record Result : Type := {
  r_regime : Regime;
  breakdown : Breakdown;
  baseTax : Z;
  surcharge : Z;
  cess : Z;
  capitalGainsTax : Z;
  totalTax : Z;
  effectiveRate : jsnum;
  monthlyTax : Z
}.

(** [slab.max - slab.min] and [Math.min(x, .)] with a possibly infinite
    upper end. *)
Definition width (s : Slab) : bound :=
  match max s with
  | Finite m => Finite (m - min s)
  | Infinity => Infinity
  end.

Definition min_with (x : Q) (b : bound) : Q :=
  match b with
  | Finite m => Qmin x m
  | Infinity => x
  end.

(** One turn of the loop over the slabs (lines 427-432). *)
Definition slabStep (taxableIncome baseTax : Q) (slab : Slab) : Q :=
  if Qlt_bool (min slab) taxableIncome then
    let taxableInSlab := min_with (taxableIncome - min slab) (width slab) in
    baseTax + taxableInSlab * (rate slab / 100)
  else baseTax.

(** The loop over the slabs, from [baseTax = 0]. *)
Definition slabTax (cfg : SlabConfig) (taxableIncome : Q) : Q :=
  fold_left (slabStep taxableIncome) (slabs cfg) 0.

(** The surcharge chain (lines 442-451), on the tax after rebate. *)
Definition surchargeOn (taxableIncome baseTax : Q) : Q :=
  if Qlt_bool 5000000 taxableIncome && Qle_bool taxableIncome 10000000 then
    baseTax * (10 # 100)
  else if Qlt_bool 10000000 taxableIncome && Qle_bool taxableIncome 20000000 then
    baseTax * (15 # 100)
  else if Qlt_bool 20000000 taxableIncome && Qle_bool taxableIncome 50000000 then
    baseTax * (25 # 100)
  else if Qlt_bool 50000000 taxableIncome then
    baseTax * (37 # 100)
  else 0.

(** The capital-gains block (lines 457-464). *)
Definition capitalGains (ltcg stcg : Q) : Q :=
  let capitalGainsTax := 0 in
  let capitalGainsTax :=
    if Qlt_bool 0 ltcg then
      let taxableLTCG := Qmax 0 (ltcg - ltcgExemption) in
      capitalGainsTax + taxableLTCG * (ltcgRate / 100)
    else capitalGainsTax in
  if Qlt_bool 0 stcg then capitalGainsTax + stcg * (stcgRate / 100)
  else capitalGainsTax.

(** [calculateTax(params)], on the slab tables [taxSlabs] found in
    [this.taxSlabs]. *)
Definition calculateTaxOn (taxSlabs : Regime -> SlabConfig)
           (params : Params) : Result :=
  let grossIncome := dflt (grossIncome params) 0 in
  let regime := dflt (regime params) new in
  let deductions80C := dflt (deductions80C params) 0 in
  let deductions80D := dflt (deductions80D params) 0 in
  let deductions80CCD := dflt (deductions80CCD params) 0 in
  let homeLoanInterest := dflt (homeLoanInterest params) 0 in
  let hra := dflt (hra params) 0 in
  let ltcg := dflt (ltcg params) 0 in
  let stcg := dflt (stcg params) 0 in
  let slabConfig := taxSlabs regime in
  let taxableIncome := grossIncome in
  (* standard deduction *)
  let taxableIncome := taxableIncome - standardDeduction slabConfig in
  (* the old regime allows more deductions *)
  let actual80C := Qmin deductions80C section80CLimit in
  let actual80D := Qmin deductions80D (section80D_self + section80D_parents) in
  let actual80CCD := Qmin deductions80CCD 50000 in
  let actualHomeLoan := Qmin homeLoanInterest homeLoan_interestUnder24b in
  let taxableIncome :=
    match regime with
    | old =>
        let taxableIncome := taxableIncome - actual80C in
        let taxableIncome := taxableIncome - actual80D in
        let taxableIncome := taxableIncome - actual80CCD in
        let taxableIncome := taxableIncome - actualHomeLoan in
        if Qlt_bool 0 hra then taxableIncome - hra else taxableIncome
    | new => taxableIncome
    end in
  let only_old (v : Q) : option Q :=
    match regime with old => Some v | new => None end in
  (* base tax *)
  let taxableIncome := Qmax 0 taxableIncome in
  let baseTax := slabTax slabConfig taxableIncome in
  (* rebate 87A *)
  let rebated := Qle_bool taxableIncome (limit (rebate87A slabConfig)) in
  let rebate := Qmin baseTax (maxRebate (rebate87A slabConfig)) in
  let baseTax := if rebated then baseTax - rebate else baseTax in
  (* surcharge, cess, capital gains *)
  let surcharge := surchargeOn taxableIncome baseTax in
  let cess := (baseTax + surcharge) * (4 # 100) in
  let capitalGainsTax := capitalGains ltcg stcg in
  let totalTax := baseTax + surcharge + cess + capitalGainsTax in
  {| r_regime := regime;
     breakdown :=
       {| b_grossIncome := grossIncome;
          deductions :=
            {| d_standardDeduction := standardDeduction slabConfig;
               d_section80C := only_old actual80C;
               d_section80D := only_old actual80D;
               d_section80CCD := only_old actual80CCD;
               d_homeLoanInterest := only_old actualHomeLoan |};
          exemptions_hra :=
            match regime with
            | old => if Qlt_bool 0 hra then Some hra else None
            | new => None
            end;
          taxableIncome := taxableIncome;
          b_rebate87A := if rebated then Some rebate else None |};
     baseTax := round baseTax;
     surcharge := round surcharge;
     cess := round cess;
     capitalGainsTax := round capitalGainsTax;
     totalTax := round totalTax;
     effectiveRate :=
       if Qlt_bool 0 grossIncome then
         scale (round_num (scale (div totalTax grossIncome) 10000)) (/ 100)
       else Num 0;
     monthlyTax := round (totalTax / 12) |}.

(** [calculateTax(params)] of the object as it is defined. *)
Definition calculateTax (params : Params) : Result :=
  calculateTaxOn taxSlabs params.

(** What [compareRegimes] returns (the text of [recommendation] is left
    out; it is chosen by the same test as [recommendedRegime]). *)
Record Comparison : Type := {
  c_old : Result;
  c_new : Result;
  savings : Z;
  recommendedRegime : Regime
}.

(** [{ ...params, regime: r }]. *)
Definition with_regime (params : Params) (r : Regime) : Params :=
  {| grossIncome := grossIncome params; regime := Some r;
     deductions80C := deductions80C params;
     deductions80D := deductions80D params;
     deductions80CCD := deductions80CCD params;
     homeLoanInterest := homeLoanInterest params;
     hra := hra params; ltcg := ltcg params; stcg := stcg params |}.

(** [compareRegimes(params)]. *)
Definition compareRegimes (params : Params) : Comparison :=
  let oldRegime := calculateTax (with_regime params old) in
  let newRegime := calculateTax (with_regime params new) in
  let savings := (totalTax oldRegime - totalTax newRegime)%Z in
  let recommendedRegime := if (0 <? savings)%Z then new else old in
  {| c_old := oldRegime;
     c_new := newRegime;
     savings := Z.abs savings;
     recommendedRegime := recommendedRegime |}.

(** The loop of [getTaxBracket], which visits the slabs from the last one
    down: [l] is the table in reverse. *)
Fixpoint bracketFrom (l : list Slab) (grossIncome : Q) : Q :=
  match l with
  | [] => 0
  | s :: l' =>
      if Qlt_bool (min s) grossIncome then rate s
      else bracketFrom l' grossIncome
  end.

(** [getTaxBracket(grossIncome, regime = 'new')]. *)
Definition getTaxBracket (grossIncome : Q) (regime : option Regime) : Q :=
  let slabs := slabs (taxSlabs (dflt regime new)) in
  bracketFrom (rev slabs) grossIncome.

(** What [checkTaxBracketChange] returns, without its two texts; the
    brackets are only present when [changed] is [true]. *)
Record BracketChange : Type := {
  changed : bool;
  previousBracket : option Q;
  newBracket : option Q
}.

(** [checkTaxBracketChange(previousIncome, newIncome, regime = 'new')]. *)
Definition checkTaxBracketChange (previousIncome newIncome : Q)
           (regime : option Regime) : BracketChange :=
  let regime := dflt regime new in
  let previousBracket := getTaxBracket (previousIncome * 12) (Some regime) in
  let newBracket := getTaxBracket (newIncome * 12) (Some regime) in
  if Qlt_bool previousBracket newBracket then
    {| changed := true;
       previousBracket := Some previousBracket;
       newBracket := Some newBracket |}
  else {| changed := false; previousBracket := None; newBracket := None |}.

(** The argument object of [calculatePostTaxReturn]. *)
Record ReturnParams : Type := {
  preTaxReturn : option Q;
  investmentType : option string;
  holdingPeriod : option string;
  taxBracket : option Q
}.

(** [calculatePostTaxReturn(params)]. *)
Definition calculatePostTaxReturn (params : ReturnParams) : Q :=
  let preTaxReturn := dflt (preTaxReturn params) 10 in
  let investmentType := dflt (investmentType params) "equity"%string in
  let holdingPeriod := dflt (holdingPeriod params) "long"%string in
  let taxBracket := dflt (taxBracket params) 30 in
  let type_is (t : string) := String.eqb investmentType t in
  if type_is "fd"%string || type_is "bonds"%string then
    preTaxReturn * (1 - taxBracket / 100)
  else if type_is "equity"%string || type_is "mutual-funds"%string then
    if String.eqb holdingPeriod "long" then preTaxReturn * (1 - (125 # 1000))
    else preTaxReturn * (1 - (20 # 100))
  else if type_is "ppf"%string || type_is "epf"%string then preTaxReturn
  else if type_is "nps"%string then
    preTaxReturn * (1 - (4 # 10) * taxBracket / 100)
  else if type_is "gold"%string || type_is "real-estate"%string then
    preTaxReturn * (85 # 100)
  else preTaxReturn * (1 - taxBracket / 100).

(** What [calculateHarvestingOpportunity] returns, without its text. *)
Record Harvesting : Type := {
  exemptionLimit : Q;
  usedExemption : Q;
  remainingExemption : Q;
  harvestingOpportunity : Q;
  taxSaved : Z
}.

(** [calculateHarvestingOpportunity({realizedGains, unrealizedGains})]. *)
Definition calculateHarvestingOpportunity
           (realizedGains unrealizedGains : option Q) : Harvesting :=
  let realizedGains := dflt realizedGains 0 in
  let unrealizedGains := dflt unrealizedGains 0 in
  let remainingExemption := Qmax 0 (ltcgExemption - realizedGains) in
  let harvestingOpportunity := Qmin remainingExemption unrealizedGains in
  let taxSaved := harvestingOpportunity * (ltcgRate / 100) in
  {| exemptionLimit := ltcgExemption;
     usedExemption := Qmin realizedGains ltcgExemption;
     remainingExemption := remainingExemption;
     harvestingOpportunity := harvestingOpportunity;
     taxSaved := round taxSaved |}.

(** An entry of [investments]: [annualAmount] may be absent, [amount] is a
    number. *)
Record Investment : Type := {
  inv_type : string;
  annualAmount : option Q;
  amount : Q
}.

Definition eligible80C : list string :=
  [ "ppf"; "elss"; "li-premium"; "nsc"; "tuition"; "home-loan-principal";
    "epf" ]%string.

(** [eligible80C.includes(t)]. *)
Definition includes (l : list string) (t : string) : bool :=
  existsb (String.eqb t) l.

(** [breakdown[t]] and [breakdown[t] = v] on an object whose keys are kept
    in the order of their first assignment. *)
Fixpoint lookup (breakdown : list (string * Q)) (t : string) : option Q :=
  match breakdown with
  | [] => None
  | (k, v) :: rest => if String.eqb k t then Some v else lookup rest t
  end.

Fixpoint assign (breakdown : list (string * Q)) (t : string) (v : Q)
  : list (string * Q) :=
  match breakdown with
  | [] => [(t, v)]
  | (k, w) :: rest =>
      if String.eqb k t then (k, v) :: rest else (k, w) :: assign rest t v
  end.

(** [x || d] on a number that may be absent: [d] when [x] is absent or 0. *)
Definition or_else (x : option Q) (d : Q) : Q :=
  match x with
  | Some v => if Qeq_bool v 0 then d else v
  | None => d
  end.

(** The body of the loop of [calculate80CUtilization]. *)
Definition add80C (st : Q * list (string * Q)) (inv : Investment)
  : Q * list (string * Q) :=
  let '(total, breakdown) := st in
  if includes eligible80C (inv_type inv) then
    let amount := or_else (annualAmount inv) (amount inv * 12) in
    (total + amount,
     assign breakdown (inv_type inv)
            (or_else (lookup breakdown (inv_type inv)) 0 + amount))
  else (total, breakdown).

(** What [calculate80CUtilization] returns, without its text. *)
Record Utilization : Type := {
  u_limit : Q;
  totalEligible : Q;
  utilized : Q;
  remaining : Q;
  u_breakdown : list (string * Q)
}.

(** [calculate80CUtilization(investments)]. *)
Definition calculate80CUtilization (investments : list Investment)
  : Utilization :=
  let '(total, breakdown) := fold_left add80C investments (0, []) in
  let utilized := Qmin total section80CLimit in
  let remaining := section80CLimit - utilized in
  {| u_limit := section80CLimit;
     totalEligible := total;
     utilized := utilized;
     remaining := remaining;
     u_breakdown := breakdown |}.

(** An input on which the old regime is the cheaper one: every deduction
    of the old regime at its ceiling. *)
Definition old_regime_saver : Params :=
  {| grossIncome := Some 1000000; regime := None;
     deductions80C := Some 150000; deductions80D := Some 50000;
     deductions80CCD := Some 50000; homeLoanInterest := Some 200000;
     hra := None; ltcg := None; stcg := None |}.

(** [{ ...params, grossIncome: g }]. *)
Definition with_grossIncome (params : Params) (g : Q) : Params :=
  {| grossIncome := Some g; regime := regime params;
     deductions80C := deductions80C params;
     deductions80D := deductions80D params;
     deductions80CCD := deductions80CCD params;
     homeLoanInterest := homeLoanInterest params;
     hra := hra params; ltcg := ltcg params; stcg := stcg params |}.

(** [{ ...params, deductions80C: d }]. *)
Definition with_deductions80C (params : Params) (d : Q) : Params :=
  {| grossIncome := grossIncome params; regime := regime params;
     deductions80C := Some d;
     deductions80D := deductions80D params;
     deductions80CCD := deductions80CCD params;
     homeLoanInterest := homeLoanInterest params;
     hra := hra params; ltcg := ltcg params; stcg := stcg params |}.

(** [params] without the inputs that only the old regime reads. *)
Definition without_deductions (params : Params) : Params :=
  {| grossIncome := grossIncome params; regime := regime params;
     deductions80C := None; deductions80D := None;
     deductions80CCD := None; homeLoanInterest := None;
     hra := None; ltcg := ltcg params; stcg := stcg params |}.

(** A slab table as [taxSlabs] writes them: no negative rate, no slab
    whose upper end lies below its lower end, no negative rebate cap. *)
Definition valid_slab (s : Slab) : Prop :=
  0 <= rate s /\
  match max s with
  | Finite m => min s <= m
  | Infinity => True
  end.

Definition valid_config (cfg : SlabConfig) : Prop :=
  Forall valid_slab (slabs cfg) /\ 0 <= maxRebate (rebate87A cfg).

End TaxCalculator.

(** ** Monte Carlo engine ([MonteCarlo] in monte-carlo.js) *)

Module MonteCarlo.
Import JS.

(** The argument object of [simulateGoal]. *)
Record GoalParams : Type := {
  currentAmount : option Q;
  monthlyContribution : option Q;
  expectedReturn : option Q;
  volatility : option Q;
  years : option Q;
  targetAmount : option Q;
  iterations : option nat
}.

Record Percentiles : Type := {
  p10 : jsnum; p25 : jsnum; p50 : jsnum; p75 : jsnum; p90 : jsnum
}.

Record Simulation : Type := {
  probability : jsnum;
  percentiles : Percentiles;
  mean : jsnum;
  min : jsnum;
  max : jsnum
}.

(** [results[i]]: [undefined] outside the array. *)
Definition at_index (results : list Q) (i : Z) : option Q :=
  if (i <? 0)%Z then None else nth_error results (Z.to_nat i).

(** [Math.round(results[i])]: [NaN] on [undefined]. *)
Definition round_at (results : list Q) (i : Z) : jsnum :=
  match at_index results i with
  | Some v => Num (inject_Z (round v))
  | None => NaN
  end.

Section Simulation.
(** [generateMonthlyReturn(annualReturn, annualVolatility)] reads a
    random source ([jStat] or [Math.random]).  The source is an oracle:
    its first argument is the number of draws made so far. *)
Variable generateMonthlyReturn : nat -> Q -> Q -> Q.

Section Trial.
Variables (annualReturn annualVolatility monthlyContribution : Q).

(** The loop over the months of one trial; returns the portfolio and
    the number of draws made. *)
Fixpoint walk (months : nat) (draws : nat) (portfolio : Q) : Q * nat :=
  match months with
  | O => (portfolio, draws)
  | S m =>
      let monthlyReturn :=
        generateMonthlyReturn draws annualReturn annualVolatility in
      let portfolio := portfolio * (1 + monthlyReturn) in
      let portfolio := Qred (portfolio + monthlyContribution) in
      walk m (S draws) portfolio
  end.

(** The loop over the trials; [results.push(portfolio)] appends. *)
Fixpoint trials (iterations : nat) (months : nat) (currentAmount : Q)
         (draws : nat) (results : list Q) : list Q :=
  match iterations with
  | O => results
  | S i =>
      let '(portfolio, draws') := walk months draws currentAmount in
      trials i months currentAmount draws' (results ++ [portfolio])
  end.
End Trial.

(** [simulateGoal(params)]. *)
Definition simulateGoal (params : GoalParams) : Simulation :=
  let currentAmount := dflt (currentAmount params) 0 in
  let monthlyContribution := dflt (monthlyContribution params) 0 in
  let expectedReturn := dflt (expectedReturn params) 12 in
  let volatility := dflt (volatility params) 15 in
  let years := dflt (years params) 5 in
  let targetAmount := dflt (targetAmount params) 0 in
  let iterations := dflt (iterations params) 1000%nat in
  let annualReturn := expectedReturn / 100 in
  let annualVolatility := volatility / 100 in
  let months := round (years * 12) in
  let results :=
    trials annualReturn annualVolatility monthlyContribution
           iterations (Z.to_nat months) currentAmount 0%nat [] in
  let results := sort (fun a b => a - b) results in
  let n := inject_Z (Z.of_nat iterations) in
  let successCount :=
    List.length (filter (fun r => Qle_bool targetAmount r) results) in
  let probability := div (inject_Z (Z.of_nat successCount)) n in
  {| probability := scale (round_num (scale probability 100)) (/ 100);
     percentiles :=
       {| p10 := round_at results (floor (n * (1 # 10)));
          p25 := round_at results (floor (n * (25 # 100)));
          p50 := round_at results (floor (n * (5 # 10)));
          p75 := round_at results (floor (n * (75 # 100)));
          p90 := round_at results (floor (n * (9 # 10))) |};
     mean := round_num (div (fold_left Qplus results 0) n);
     min := round_at results 0;
     max := round_at results (Z.of_nat iterations - 1) |}.
End Simulation.

(** The argument object of [calculateYearsToTarget]. *)
Record TargetParams : Type := {
  t_currentAmount : option Q;
  t_monthlyContribution : option Q;
  t_expectedReturn : option Q;
  t_targetAmount : option Q
}.

(** The [while] loop of [calculateYearsToTarget]; [fuel] bounds the number
    of turns of the model. *)
Fixpoint accumulate (monthlyRate monthlyContribution targetAmount : Q)
         (fuel : nat) (months : nat) (value : Q) : nat * Q :=
  match fuel with
  | O => (months, value)
  | S f =>
      if Qlt_bool value targetAmount && (months <? 600)%nat then
        let value :=
          Qred (value * (1 + monthlyRate) + monthlyContribution) in
        accumulate monthlyRate monthlyContribution targetAmount
                   f (S months) value
      else (months, value)
  end.

(** [calculateYearsToTarget(params)]; [None] is [null].  The loop leaves
    after at most 600 turns, so 600 units of fuel are never used up
    (see [accumulate_fuel]). *)
Definition calculateYearsToTarget (params : TargetParams) : option nat :=
  let currentAmount := dflt (t_currentAmount params) 0 in
  let monthlyContribution := dflt (t_monthlyContribution params) 0 in
  let expectedReturn := dflt (t_expectedReturn params) 12 in
  let targetAmount := dflt (t_targetAmount params) 1000000 in
  let monthlyRate := (expectedReturn / 100) / 12 in
  let '(months, _) :=
    accumulate monthlyRate monthlyContribution targetAmount
               600 0 currentAmount in
  if (months <? 600)%nat then Some months else None.

(** The argument object of [calculateRequiredSIP]. *)
Record SIPParams : Type := {
  s_currentAmount : option Q;
  s_expectedReturn : option Q;
  s_targetAmount : option Q;
  s_years : option Q
}.

(** [calculateRequiredSIP(params)]. *)
Definition calculateRequiredSIP `{MathPow} (params : SIPParams) : jsnum :=
  let currentAmount := dflt (s_currentAmount params) 0 in
  let expectedReturn := dflt (s_expectedReturn params) 12 in
  let targetAmount := dflt (s_targetAmount params) 1000000 in
  let years := dflt (s_years params) 5 in
  let monthlyRate := (expectedReturn / 100) / 12 in
  let months := years * 12 in
  let fvCurrent := currentAmount * pow (1 + monthlyRate) months in
  let remaining := targetAmount - fvCurrent in
  if Qle_bool remaining 0 then Num 0
  else
    let sip :=
      div (remaining * monthlyRate) (pow (1 + monthlyRate) months - 1) in
    max0 (round_num sip).

(** The argument object of [calculateWindfallImpact]. *)
Record WindfallParams : Type := {
  windfall : option Q;
  currentMonthlyContribution : option Q;
  w_expectedReturn : option Q;
  w_targetAmount : option Q;
  currentProgress : option Q
}.

Record WindfallImpact : Type := {
  monthsSaved : Z;
  investedValue : jsnum
}.

(** [!m] on a month count that may be [null]: true on [null] and on 0. *)
Definition falsy (m : option nat) : bool :=
  match m with
  | Some O => true
  | Some (S _) => false
  | None => true
  end.

(** [calculateWindfallImpact(params)]; [None] is [null]. *)
Definition calculateWindfallImpact
           (generateMonthlyReturn : nat -> Q -> Q -> Q)
           (params : WindfallParams) : option WindfallImpact :=
  let windfall := dflt (windfall params) 0 in
  let currentMonthlyContribution :=
    dflt (currentMonthlyContribution params) 0 in
  let expectedReturn := dflt (w_expectedReturn params) 12 in
  let targetAmount := dflt (w_targetAmount params) 1000000 in
  let currentProgress := dflt (currentProgress params) 0 in
  let monthsWithoutWindfall :=
    calculateYearsToTarget
      {| t_currentAmount := Some currentProgress;
         t_monthlyContribution := Some currentMonthlyContribution;
         t_expectedReturn := Some expectedReturn;
         t_targetAmount := Some targetAmount |} in
  let monthsWithWindfall :=
    calculateYearsToTarget
      {| t_currentAmount := Some (currentProgress + windfall);
         t_monthlyContribution := Some currentMonthlyContribution;
         t_expectedReturn := Some expectedReturn;
         t_targetAmount := Some targetAmount |} in
  if falsy monthsWithoutWindfall || falsy monthsWithWindfall then None
  else
    match monthsWithoutWindfall, monthsWithWindfall with
    | Some without, Some with_ =>
        Some
          {| monthsSaved := (Z.of_nat without - Z.of_nat with_)%Z;
             investedValue :=
               p50 (percentiles
                      (simulateGoal generateMonthlyReturn
                         {| currentAmount := Some windfall;
                            monthlyContribution := Some 0;
                            expectedReturn := Some expectedReturn;
                            volatility := Some 15;
                            years :=
                              Some (inject_Z (Z.of_nat without) / 12);
                            targetAmount := Some (windfall * 2);
                            iterations := Some 100%nat |})) |}
    | _, _ => None
    end.

(** The value after [k] months of [calculateYearsToTarget]'s accumulation,
    started from [value]. *)
Fixpoint valueAfter (monthlyRate monthlyContribution : Q) (k : nat)
         (value : Q) : Q :=
  match k with
  | O => value
  | S k' =>
      valueAfter monthlyRate monthlyContribution k'
                 (value * (1 + monthlyRate) + monthlyContribution)
  end.

End MonteCarlo.

(** ** Inflation engine ([Inflation] in inflation.js) *)

Module Inflation.
Import JS.

Definition defaultRate : Q := 6.

(** [futureValue(presentValue, years, inflationRate = this.defaultRate)]. *)
Definition futureValue `{MathPow} (presentValue years : Q)
           (inflationRate : option Q) : Q :=
  let rate := dflt inflationRate defaultRate / 100 in
  presentValue * pow (1 + rate) years.

(** [presentValue(futureValue, years, inflationRate = this.defaultRate)].
    The divisor is [Math.pow] of a base that the callers keep positive; a
    zero divisor is outside the rational model ([x / 0] is [0] in [Q]). *)
Definition presentValue `{MathPow} (futureValue years : Q)
           (inflationRate : option Q) : Q :=
  let rate := dflt inflationRate defaultRate / 100 in
  futureValue / pow (1 + rate) years.

(** [realReturn(nominalReturn, inflationRate = this.defaultRate)]: the
    quotient is not an ordinary number when the inflation rate is -100. *)
Definition realReturn (nominalReturn : Q) (inflationRate : option Q)
  : jsnum :=
  let nominal := nominalReturn / 100 in
  let inflation := dflt inflationRate defaultRate / 100 in
  match div (1 + nominal) (1 + inflation) with
  | Num q => Num ((q - 1) * 100)
  | other => other
  end.

(** [requiredNominalReturn(targetRealReturn, inflationRate)]. *)
Definition requiredNominalReturn (targetRealReturn : Q)
           (inflationRate : option Q) : Q :=
  let real := targetRealReturn / 100 in
  let inflation := dflt inflationRate defaultRate / 100 in
  let nominal := (1 + real) * (1 + inflation) - 1 in
  nominal * 100.

(** The argument object of [retirementCorpus]. *)
Record RetirementParams : Type := {
  monthlyExpenses : option Q;
  currentAge : option Q;
  retirementAge : option Q;
  lifeExpectancy : option Q;
  preRetirementInflation : option Q;
  postRetirementInflation : option Q;
  postRetirementReturn : option Q
}.

(** What [retirementCorpus] returns, without the copy of its assumptions. *)
Record Retirement : Type := {
  monthlyExpensesToday : Q;
  monthlyExpensesAtRetirement : Z;
  corpusRequired : jsnum;
  yearsToRetirement : Q;
  retirementYears : Q
}.

(** [retirementCorpus(params)].  The real return is an ordinary number
    unless the post-retirement inflation is -100; the other three cases
    follow the arithmetic of the code on an infinite or undefined monthly
    return: [-Infinity <= 0] takes the linear branch, [NaN <= 0] is false
    and the quotient is [NaN], and on [Infinity] the quotient is 0 unless
    the power itself is infinite. *)
Definition retirementCorpus `{MathPow} (params : RetirementParams)
  : Retirement :=
  let monthlyExpenses := dflt (monthlyExpenses params) 50000 in
  let currentAge := dflt (currentAge params) 30 in
  let retirementAge := dflt (retirementAge params) 60 in
  let lifeExpectancy := dflt (lifeExpectancy params) 85 in
  let preRetirementInflation := dflt (preRetirementInflation params) 6 in
  let postRetirementInflation := dflt (postRetirementInflation params) 5 in
  let postRetirementReturn := dflt (postRetirementReturn params) 6 in
  let yearsToRetirement := retirementAge - currentAge in
  let retirementYears := lifeExpectancy - retirementAge in
  let expensesAtRetirement :=
    futureValue monthlyExpenses yearsToRetirement
                (Some preRetirementInflation) in
  let realReturn :=
    realReturn postRetirementReturn (Some postRetirementInflation) in
  let retirementMonths := retirementYears * 12 in
  let corpus :=
    match realReturn with
    | Num realReturn =>
        let monthlyRealReturn := realReturn / 100 / 12 in
        if Qle_bool monthlyRealReturn 0 then
          Num (expensesAtRetirement * retirementMonths)
        else
          Num (expensesAtRetirement
               * (1 - pow (1 + monthlyRealReturn) (- retirementMonths))
               / monthlyRealReturn)
    | NegInf => Num (expensesAtRetirement * retirementMonths)
    | PosInf => if Qlt_bool retirementMonths 0 then NaN else Num 0
    | NaN => NaN
    end in
  {| monthlyExpensesToday := monthlyExpenses;
     monthlyExpensesAtRetirement := round expensesAtRetirement;
     corpusRequired := round_num corpus;
     yearsToRetirement := yearsToRetirement;
     retirementYears := retirementYears |}.

End Inflation.

(** ** Debt payoff engine ([DebtSnowball] in inflation.js) *)

Module DebtSnowball.
Import JS.

(** An entry of [liabilities], with the properties the engine reads. *)
Record Liability : Type := {
  name : string;
  principal : Q;
  interestRate : Q;
  emi : Q;
  loanType : string
}.

(** [calculatePriority(debt)]. *)
Definition calculatePriority (debt : Liability) : Q :=
  let score := 0 in
  let score :=
    if Qlt_bool 20 (interestRate debt) then score + 100
    else if Qlt_bool 15 (interestRate debt) then score + 80
    else if Qlt_bool 12 (interestRate debt) then score + 60
    else if Qlt_bool 8 (interestRate debt) then score + 40
    else score + 20 in
  let score :=
    if String.eqb (loanType debt) "credit-card" then score + 50
    else if String.eqb (loanType debt) "personal" then score + 30
    else score in
  let score :=
    if Qlt_bool (principal debt) 50000 then score + 20
    else if Qlt_bool (principal debt) 200000 then score + 10
    else score in
  let score :=
    if String.eqb (loanType debt) "home"
       || String.eqb (loanType debt) "education"
    then score - 30 else score in
  score.

(** The [while] loop of [analyzeDebts] counting the months remaining. *)
Fixpoint monthsLoop (monthlyInterest emi : Q)
         (fuel : nat) (months : nat) (remaining : Q) : nat :=
  match fuel with
  | O => months
  | S f =>
      if Qlt_bool 0 remaining && (months <? 600)%nat then
        let interest := remaining * monthlyInterest in
        monthsLoop monthlyInterest emi f (S months)
                   (Qred (remaining + interest - emi))
      else months
  end.

(** An entry of [analysis.debts]: the liability ([...debt]) and the
    properties [analyzeDebts] adds to it. *)
Record Analyzed : Type := {
  debt : Liability;
  monthlyInterestAmount : Z;
  monthlyPrincipalAmount : Z;
  monthsRemaining : nat;
  totalInterest : Z;
  interestToDebtRatio : Q;
  isHighInterest : bool;
  priority : Q
}.

(** The function mapped over [liabilities] by [analyzeDebts]. *)
Definition analyzeDebt (debt : Liability) : Analyzed :=
  let monthlyInterest := (interestRate debt / 100) / 12 in
  let interestPortion := principal debt * monthlyInterest in
  let principalPortion := emi debt - interestPortion in
  let months :=
    monthsLoop monthlyInterest (emi debt) 600 0 (principal debt) in
  let totalPayment := emi debt * inject_Z (Z.of_nat months) in
  let totalInterest := totalPayment - principal debt in
  {| debt := debt;
     monthlyInterestAmount := round interestPortion;
     monthlyPrincipalAmount := round principalPortion;
     monthsRemaining := months;
     totalInterest := round totalInterest;
     interestToDebtRatio :=
       if Qlt_bool 0 (principal debt) then totalInterest / principal debt
       else 0;
     isHighInterest := Qlt_bool 12 (interestRate debt);
     priority := calculatePriority debt |}.

Record Analysis : Type := { hasDebt : bool; debts : list Analyzed }.

(** [analyzeDebts(liabilities)], without the [summary] property of its
    result, which [createPayoffPlan] does not read. *)
Definition analyzeDebts (liabilities : list Liability) : Analysis :=
  match liabilities with
  | [] => {| hasDebt := false; debts := [] |}
  | _ =>
      let debts := map analyzeDebt liabilities in
      let debts := sort (fun a b => priority b - priority a) debts in
      {| hasDebt := true; debts := debts |}
  end.

(** An entry of the simulation array of [createPayoffPlan]. *)
Record SimDebt : Type := {
  analyzed : Analyzed;
  balance : Q;
  paid : Q;
  monthsPaid : nat
}.

Definition s_principal (d : SimDebt) : Q := principal (debt (analyzed d)).
Definition s_interestRate (d : SimDebt) : Q :=
  interestRate (debt (analyzed d)).
Definition s_emi (d : SimDebt) : Q := emi (debt (analyzed d)).
Definition s_name (d : SimDebt) : string := name (debt (analyzed d)).

Record PaymentRow : Type := {
  row_name : string;
  row_payment : Z;
  row_interest : Z;
  row_principal : Z;
  row_balance : Z
}.

Record MonthPlan : Type := { month : nat; payments : list PaymentRow }.

(** [d.balance > 0]. *)
Definition active (d : SimDebt) : bool := Qlt_bool 0 (balance d).

(** The position of [debts.find(d => d.balance > 0)]. *)
Fixpoint findActive (debts : list SimDebt) : option nat :=
  match debts with
  | [] => None
  | d :: rest =>
      if active d then Some O else option_map S (findActive rest)
  end.

(** The [for (const debt of debts)] loop of one month.  [done] holds the
    entries already visited this month, as they are now; [todo] the
    entries still to visit.  Returns the entries of [todo] after their
    visit and the rows pushed to [monthPlan.payments]. *)
Fixpoint monthPass (totalExtraAvailable : Q) (done todo : list SimDebt)
         (freedUpPayment : Q) : list SimDebt * list PaymentRow :=
  match todo with
  | [] => ([], [])
  | debt :: rest =>
      if Qle_bool (balance debt) 0 then
        let '(rest', rows) :=
          monthPass totalExtraAvailable (done ++ [debt]) rest
                    freedUpPayment in
        (debt :: rest', rows)
      else
        let monthlyRate := (s_interestRate debt / 100) / 12 in
        let interest := balance debt * monthlyRate in
        let payment := s_emi debt in
        let payment :=
          match findActive (done ++ debt :: rest) with
          | Some i =>
              if (i =? List.length done)%nat
              then payment + (totalExtraAvailable + freedUpPayment)
              else payment
          | None => payment
          end in
        let payment := Qmin payment (balance debt + interest) in
        let principalPaid := payment - interest in
        let debt' :=
          {| analyzed := analyzed debt;
             balance := Qred (Qmax 0 (balance debt - principalPaid));
             paid := Qred (paid debt + payment);
             monthsPaid := S (monthsPaid debt) |} in
        let row :=
          {| row_name := s_name debt;
             row_payment := round payment;
             row_interest := round interest;
             row_principal := round principalPaid;
             row_balance := round (balance debt') |} in
        let freedUpPayment :=
          if Qeq_bool (balance debt') 0 then freedUpPayment + s_emi debt
          else freedUpPayment in
        let '(rest', rows) :=
          monthPass totalExtraAvailable (done ++ [debt']) rest
                    freedUpPayment in
        (debt' :: rest', row :: rows)
  end.

(** The [while] loop of [createPayoffPlan]. *)
Fixpoint payoffLoop (totalExtraAvailable : Q) (fuel : nat) (month : nat)
         (debts : list SimDebt) (plan : list MonthPlan)
  : nat * list SimDebt * list MonthPlan :=
  match fuel with
  | O => (month, debts, plan)
  | S f =>
      if existsb active debts && (month <? 600)%nat then
        let month := S month in
        let '(debts', rows) :=
          monthPass totalExtraAvailable [] debts 0 in
        payoffLoop totalExtraAvailable f month debts'
                   (plan ++ [{| month := month; payments := rows |}])
      else (month, debts, plan)
  end.

(** An entry of the array of [simulateMinimumPayments]. *)
Record MinDebt : Type := {
  m_balance : Q;
  m_emi : Q;
  m_rate : Q;
  m_paid : Q
}.

(** The body of its [for] loop. *)
Definition minStep (debt : MinDebt) : MinDebt :=
  if Qle_bool (m_balance debt) 0 then debt
  else
    let interest := m_balance debt * (m_rate debt / 100 / 12) in
    let payment := Qmin (m_emi debt) (m_balance debt + interest) in
    {| m_balance := Qred (Qmax 0 (m_balance debt + interest - payment));
       m_emi := m_emi debt;
       m_rate := m_rate debt;
       m_paid := Qred (m_paid debt + payment) |}.

(** Its [while] loop. *)
Fixpoint minLoop (fuel : nat) (month : nat) (debts : list MinDebt)
  : nat * list MinDebt :=
  match fuel with
  | O => (month, debts)
  | S f =>
      if existsb (fun d => Qlt_bool 0 (m_balance d)) debts
         && (month <? 600)%nat
      then minLoop f (S month) (map minStep debts)
      else (month, debts)
  end.

Record Totals : Type := { months : nat; totalPaid : Q }.

Definition minStart (d : Liability) : MinDebt :=
  {| m_balance := principal d; m_emi := emi d;
     m_rate := interestRate d; m_paid := 0 |}.

(** The array of [simulateMinimumPayments] when its loop is left. *)
Definition minimumPaymentsRun (liabilities : list Liability)
  : nat * list MinDebt :=
  minLoop 600 0 (map minStart liabilities).

(** [simulateMinimumPayments(liabilities)]. *)
Definition simulateMinimumPayments (liabilities : list Liability)
  : Totals :=
  let '(month, debts) := minimumPaymentsRun liabilities in
  {| months := month;
     totalPaid := fold_left (fun sum d => sum + m_paid d) debts 0 |}.

Record DebtSummary : Type := {
  ds_name : string;
  initialBalance : Q;
  ds_totalPaid : Z;
  monthsToPay : nat;
  interestPaid : Z
}.

Record Summary : Type := {
  totalMonths : nat;
  sum_totalPaid : Z;
  monthsSaved : Z;
  interestSaved : Z
}.

Record PayoffPlan : Type := {
  method : string;
  plan : list MonthPlan;
  plan_debts : list DebtSummary;
  summary : Summary
}.

Definition simStart (d : Analyzed) : SimDebt :=
  {| analyzed := d; balance := principal (debt d);
     paid := 0; monthsPaid := 0 |}.

(** The simulation array of [createPayoffPlan] after the sort. *)
Definition payoffOrder (method : string) (debts : list Analyzed)
  : list SimDebt :=
  let debts := map simStart debts in
  if String.eqb method "avalanche" then
    sort (fun a b => s_interestRate b - s_interestRate a) debts
  else
    sort (fun a b => balance a - balance b) debts.

(** The month counter, the simulation array and the plan when the loop of
    [createPayoffPlan] is left. *)
Definition payoffRun (liabilities : list Liability) (extraPayment : Q)
           (method : string) : nat * list SimDebt * list MonthPlan :=
  payoffLoop extraPayment 600 0
             (payoffOrder method (debts (analyzeDebts liabilities))) [].

(** [createPayoffPlan(liabilities, extraPayment = 0, method = 'avalanche')];
    [None] is [null]. *)
Definition createPayoffPlan (liabilities : list Liability)
           (extraPayment : option Q) (method : option string)
  : option PayoffPlan :=
  let extraPayment := dflt extraPayment 0 in
  let method := dflt method "avalanche"%string in
  let analysis := analyzeDebts liabilities in
  if negb (hasDebt analysis) then None
  else
    let '(month, debts, plan) :=
      payoffRun liabilities extraPayment method in
    let withExtra :=
      {| months := month;
         totalPaid := fold_left (fun sum d => sum + paid d) debts 0 |} in
    let withoutExtra := simulateMinimumPayments liabilities in
    Some
      {| method := method;
         plan := plan;
         plan_debts :=
           map (fun d =>
                  {| ds_name := s_name d;
                     initialBalance := s_principal d;
                     ds_totalPaid := round (paid d);
                     monthsToPay := monthsPaid d;
                     interestPaid := round (paid d - s_principal d) |})
               debts;
         summary :=
           {| totalMonths := months withExtra;
              sum_totalPaid := round (totalPaid withExtra);
              monthsSaved :=
                (Z.of_nat (months withoutExtra)
                 - Z.of_nat (months withExtra))%Z;
              interestSaved :=
                round (totalPaid withoutExtra - totalPaid withExtra) |} |}.

(** What [shouldPrioritizeDebt] returns, without its text. *)
Record Priority : Type := {
  prioritizeDebt : bool;
  highInterestDebts : option (list Analyzed);
  creditCardDebt : option (list Analyzed)
}.

(** [array.length > 0]. *)
Definition nonempty {A : Type} (l : list A) : bool :=
  match l with
  | [] => false
  | _ :: _ => true
  end.

(** [shouldPrioritizeDebt(liabilities, investmentReturn = 12)]. *)
Definition shouldPrioritizeDebt (liabilities : list Liability)
           (investmentReturn : option Q) : Priority :=
  let investmentReturn := dflt investmentReturn 12 in
  let analysis := analyzeDebts liabilities in
  if negb (hasDebt analysis) then
    {| prioritizeDebt := false; highInterestDebts := None;
       creditCardDebt := None |}
  else
    let highInterestDebts :=
      filter (fun d => Qlt_bool investmentReturn (interestRate (debt d)))
             (debts analysis) in
    if nonempty highInterestDebts then
      {| prioritizeDebt := true;
         highInterestDebts := Some highInterestDebts;
         creditCardDebt := None |}
    else
      let creditCardDebt :=
        filter (fun d => String.eqb (loanType (debt d)) "credit-card")
               (debts analysis) in
      if nonempty creditCardDebt then
        {| prioritizeDebt := true; highInterestDebts := None;
           creditCardDebt := Some creditCardDebt |}
      else
        {| prioritizeDebt := false; highInterestDebts := None;
           creditCardDebt := None |}.

(** What [allocateSurplus] returns, without its text. *)
Record Allocation : Type := { toDebt : Q; toGoals : Q }.

(** [allocateSurplus(surplus, liabilities, investmentReturn = 12)]. *)
Definition allocateSurplus (surplus : Q) (liabilities : list Liability)
           (investmentReturn : option Q) : Allocation :=
  let investmentReturn := dflt investmentReturn 12 in
  let priority := shouldPrioritizeDebt liabilities (Some investmentReturn) in
  if negb (prioritizeDebt priority) then
    {| toDebt := 0; toGoals := surplus |}
  else
    let analysis := analyzeDebts liabilities in
    let highInterestEMIs :=
      fold_left (fun sum d => sum + emi (debt d))
                (filter (fun d =>
                           Qlt_bool investmentReturn (interestRate (debt d)))
                        (debts analysis)) 0 in
    let toDebt := Qmin surplus (highInterestEMIs * (5 # 10)) in
    let toGoals := surplus - toDebt in
    {| toDebt := inject_Z (round toDebt);
       toGoals := inject_Z (round toGoals) |}.

(** Three liabilities used as examples, all at a zero rate so that every
    amount is a whole number: a small debt with a large installment, a
    large debt, and a debt too slow to be cleared in 600 months. *)
Definition small_debt : Liability :=
  {| name := "A"; principal := 1000; interestRate := 0; emi := 600;
     loanType := "personal" |}.

Definition large_debt : Liability :=
  {| name := "B"; principal := 10000; interestRate := 0; emi := 500;
     loanType := "personal" |}.

Definition slow_debt : Liability :=
  {| name := "N"; principal := 1000000; interestRate := 0; emi := 1000;
     loanType := "home" |}.

(** A debt record the engine is meant for: no negative principal, rate or
    installment. *)
Definition well_formed (d : Liability) : Prop :=
  0 <= principal d /\ 0 <= interestRate d /\ 0 <= emi d.



End DebtSnowball.

(** ** Loan installment ([Store.calculateEMI] in the state store) *)

Module Store.
Import JS.

(** [calculateEMI(principal, annualRate, tenureYears)]. *)
Definition calculateEMI `{MathPow} (principal annualRate tenureYears : Q)
  : jsnum :=
  if Qle_bool principal 0 || Qle_bool tenureYears 0 then Num 0
  else
    let monthlyRate := annualRate / 100 / 12 in
    let months := tenureYears * 12 in
    if Qeq_bool monthlyRate 0 then
      Num (inject_Z (round (principal / months)))
    else
      let emi :=
        div (principal * monthlyRate * pow (1 + monthlyRate) months)
            (pow (1 + monthlyRate) months - 1) in
      round_num emi.

End Store.

(** * Properties *)

(** ** Comparisons and rounding *)

Section NumberFacts.
Import JS.

Lemma Qlt_bool_true (x y : Q) : Qlt_bool x y = true <-> x < y.
Proof.
  unfold Qlt_bool. rewrite negb_true_iff.
  split; intro Hxy.
  - apply Qnot_le_lt. intro Hle.
    apply Qle_bool_iff in Hle. congruence.
  - destruct (Qle_bool y x) eqn:E; [| reflexivity].
    apply Qle_bool_iff in E. exfalso. apply (Qlt_not_le _ _ Hxy E).
Qed.

Lemma Qlt_bool_false (x y : Q) : Qlt_bool x y = false <-> y <= x.
Proof.
  unfold Qlt_bool. rewrite negb_false_iff. apply Qle_bool_iff.
Qed.

Lemma Qle_bool_false (x y : Q) : Qle_bool x y = false <-> y < x.
Proof.
  rewrite <- Qlt_bool_true. unfold Qlt_bool.
  destruct (Qle_bool x y); simpl; split; congruence.
Qed.

Lemma Qeq_bool_false (x y : Q) : Qeq_bool x y = false <-> ~ x == y.
Proof.
  split.
  - intros E H. apply Qeq_bool_iff in H. congruence.
  - intro H. destruct (Qeq_bool x y) eqn:E; [| reflexivity].
    apply Qeq_bool_iff in E. contradiction.
Qed.

Lemma round_le (x y : Q) : x <= y -> (round x <= round y)%Z.
Proof.
  intro H. unfold round. apply Qfloor_resp_le. lra.
Qed.

Lemma round_nonneg (x : Q) : 0 <= x -> (0 <= round x)%Z.
Proof.
  intro H. change 0%Z with (Qfloor 0). unfold round.
  apply Qfloor_resp_le. lra.
Qed.

Lemma round_inject_Z (z : Z) : round (inject_Z z) = z.
Proof.
  unfold round.
  assert (Hlo : (z <= Qfloor (inject_Z z + (1 # 2)))%Z).
  { rewrite <- (Qfloor_Z z) at 1. apply Qfloor_resp_le. lra. }
  assert (Hhi : (Qfloor (inject_Z z + (1 # 2)) < z + 1)%Z).
  { rewrite Zlt_Qlt. rewrite inject_Z_plus. change (inject_Z 1) with 1.
    pose proof (Qfloor_le (inject_Z z + (1 # 2))). lra. }
  lia.
Qed.

Lemma round_eq_Z (x : Q) (z : Z) : x == inject_Z z -> round x = z.
Proof.
  intro H. unfold round. rewrite H. apply round_inject_Z.
Qed.

End NumberFacts.

(** Turns the tests of the code into propositions. *)
Ltac qtests :=
  repeat match goal with
    | H : JS.Qlt_bool _ _ = true |- _ => apply Qlt_bool_true in H
    | H : JS.Qlt_bool _ _ = false |- _ => apply Qlt_bool_false in H
    | H : Qle_bool _ _ = true |- _ => apply Qle_bool_iff in H
    | H : Qle_bool _ _ = false |- _ => apply Qle_bool_false in H
    | H : Qeq_bool _ _ = true |- _ => apply Qeq_bool_iff in H
    | H : Qeq_bool _ _ = false |- _ => apply Qeq_bool_false in H
    | H : (_ && _)%bool = true |- _ => apply andb_true_iff in H; destruct H
    | H : (_ && _)%bool = false |- _ => apply andb_false_iff in H; destruct H
    end.

(** Case analysis on [Qmin] and [Qmax]. *)
Ltac qminmax :=
  repeat match goal with
    | |- context [Qmin ?a ?b] =>
        destruct (Q.min_spec a b) as [[? ->] | [? ->]]
    | |- context [Qmax ?a ?b] =>
        destruct (Q.max_spec a b) as [[? ->] | [? ->]]
    | H : context [Qmin ?a ?b] |- _ =>
        let E := fresh "E" in
        destruct (Q.min_spec a b) as [[? E] | [? E]];
        rewrite E in H; clear E
    | H : context [Qmax ?a ?b] |- _ =>
        let E := fresh "E" in
        destruct (Q.max_spec a b) as [[? E] | [? E]];
        rewrite E in H; clear E
    end.

(** Linear arithmetic after the divisions by a constant are turned into
    products. *)
Ltac qconst :=
  unfold Qdiv in *;
  repeat match goal with
    | |- context [Qinv (Qmake ?n ?d)] =>
        let v := eval compute in (Qinv (Qmake n d)) in
        change (Qinv (Qmake n d)) with v
    | H : context [Qinv (Qmake ?n ?d)] |- _ =>
        let v := eval compute in (Qinv (Qmake n d)) in
        change (Qinv (Qmake n d)) with v in H
    end.

Ltac qlra := qconst; lra.

(** A [Math.pow] for whole exponents: the exponent is truncated to an
    integer, on which the power is the repeated product (or its inverse). *)
#[local] Instance whole_pow : JS.MathPow.
Proof.
  refine {| JS.pow := fun b y => Qpower b (Qfloor y) |}.
  - intros b b' Hb y y' Hy. rewrite Hy. rewrite Hb. reflexivity.
  - intros b y Hb. apply Qpower_0_lt. exact Hb.
  - intro y. apply Qpower_1.
Defined.

(** ** Tax calculator *)

Section TaxFacts.
Import JS TaxCalculator.

Lemma min_with_mono (x y : Q) (w : bound) :
  x <= y -> min_with x w <= min_with y w.
Proof.
  intro H. destruct w as [m |]; simpl; [| exact H].
  qminmax; lra.
Qed.

Lemma min_with_nonneg (x : Q) (s : Slab) :
  valid_slab s -> 0 <= x -> 0 <= min_with x (width s).
Proof.
  intros [_ Hw] Hx. unfold width.
  destruct (max s) as [m |]; simpl; [| exact Hx].
  qminmax; lra.
Qed.

Lemma slabStep_mono (s : Slab) (t1 t2 b1 b2 : Q) :
  valid_slab s -> t1 <= t2 -> b1 <= b2 ->
  slabStep t1 b1 s <= slabStep t2 b2 s.
Proof.
  intros Hs Ht Hb. unfold slabStep.
  assert (Hr : 0 <= rate s / 100) by (destruct Hs as [Hr _]; qlra).
  destruct (Qlt_bool (min s) t1) eqn:E1;
    destruct (Qlt_bool (min s) t2) eqn:E2; qtests.
  - assert (Hd : t1 - min s <= t2 - min s) by lra.
    pose proof (Qmult_le_compat_r _ _ (rate s / 100)
                  (min_with_mono _ _ (width s) Hd) Hr).
    lra.
  - lra.
  - assert (Hd : 0 <= t2 - min s) by lra.
    pose proof (Qmult_le_0_compat _ _
                  (min_with_nonneg _ s Hs Hd) Hr).
    lra.
  - exact Hb.
Qed.

Lemma slabs_fold_mono (l : list Slab) (t1 t2 : Q) :
  Forall valid_slab l -> t1 <= t2 ->
  forall b1 b2, b1 <= b2 ->
  fold_left (slabStep t1) l b1 <= fold_left (slabStep t2) l b2.
Proof.
  intros Hl Ht. induction Hl as [| s l Hs _ IH]; intros b1 b2 Hb; simpl.
  - exact Hb.
  - apply IH. apply slabStep_mono; assumption.
Qed.

Lemma slabStep_nonneg (s : Slab) (t b : Q) :
  valid_slab s -> 0 <= b -> 0 <= slabStep t b s.
Proof.
  intros Hs Hb. unfold slabStep.
  assert (Hr : 0 <= rate s / 100) by (destruct Hs as [Hr _]; qlra).
  destruct (Qlt_bool (min s) t) eqn:E; qtests; [| exact Hb].
  assert (Hd : 0 <= t - min s) by lra.
  pose proof (Qmult_le_0_compat _ _ (min_with_nonneg _ s Hs Hd) Hr).
  lra.
Qed.

Lemma slabs_fold_nonneg (l : list Slab) (t : Q) :
  Forall valid_slab l ->
  forall b, 0 <= b -> 0 <= fold_left (slabStep t) l b.
Proof.
  intro Hl. induction Hl as [| s l Hs _ IH]; intros b Hb; simpl.
  - exact Hb.
  - apply IH. apply slabStep_nonneg; assumption.
Qed.

Lemma slabTax_mono (cfg : SlabConfig) (t1 t2 : Q) :
  valid_config cfg -> t1 <= t2 -> slabTax cfg t1 <= slabTax cfg t2.
Proof.
  intros [Hl _] Ht. unfold slabTax.
  apply slabs_fold_mono; [assumption | assumption | lra].
Qed.

Lemma slabTax_nonneg (cfg : SlabConfig) (t : Q) :
  valid_config cfg -> 0 <= slabTax cfg t.
Proof.
  intros [Hl _]. unfold slabTax. apply slabs_fold_nonneg; [assumption | lra].
Qed.

(** The surcharge is a share of the tax between 0 and 37 percent, and the
    share does not go down when the taxable income goes up. *)
Lemma surcharge_mono (t1 t2 b1 b2 : Q) :
  t1 <= t2 -> 0 <= b1 -> b1 <= b2 ->
  b1 + surchargeOn t1 b1 <= b2 + surchargeOn t2 b2.
Proof.
  intros Ht H0 Hb. unfold surchargeOn.
  repeat match goal with
    | |- context [if ?c then _ else _] => destruct c eqn:?
    end; qtests; lra.
Qed.

Lemma taxes_on_gross_mono (cfg : SlabConfig) (t1 t2 : Q) :
  valid_config cfg -> t1 <= t2 ->
  let after t :=
    if Qle_bool t (limit (rebate87A cfg))
    then slabTax cfg t - Qmin (slabTax cfg t) (maxRebate (rebate87A cfg))
    else slabTax cfg t in
  0 <= after t1 /\ after t1 <= after t2.
Proof.
  intros Hc Ht after. subst after. cbv beta.
  pose proof (slabTax_mono cfg t1 t2 Hc Ht) as Hm.
  pose proof (slabTax_nonneg cfg t1 Hc) as H1.
  pose proof (slabTax_nonneg cfg t2 Hc) as H2.
  destruct Hc as [_ Hr].
  destruct (Qle_bool t1 _) eqn:E1; destruct (Qle_bool t2 _) eqn:E2;
    qtests; qminmax; split; lra.
Qed.

End TaxFacts.

Section TaxClaims.
Import JS TaxCalculator.

Lemma taxSlabs_valid (r : Regime) : valid_config (taxSlabs r).
Proof.
  destruct r; split; simpl;
    repeat (constructor; [split; simpl; lra |]); try constructor; lra.
Qed.

(** C1.  A gross income of 1,200,000 under the new regime with no
    deduction inputs has taxable income 1,125,000 (after the standard
    deduction of 75,000) and a base tax of 52,500, which is the sum over
    the slabs (800,000 - 400,000) x 5% + (1,125,000 - 800,000) x 10%;
    there is neither rebate nor surcharge. *)
Theorem calculateTax_new_regime_1200000 :
  let r :=
    calculateTax
      {| grossIncome := Some 1200000; regime := Some new;
         deductions80C := None; deductions80D := None;
         deductions80CCD := None; homeLoanInterest := None;
         hra := None; ltcg := None; stcg := None |} in
  taxableIncome (breakdown r) == 1125000
  /\ baseTax r = 52500%Z
  /\ slabTax (taxSlabs new) 1125000
     == (800000 - 400000) * (5 / 100) + (1125000 - 800000) * (10 / 100)
  /\ (800000 - 400000) * (5 / 100) == 20000
  /\ (1125000 - 800000) * (10 / 100) == 32500
  /\ b_rebate87A (breakdown r) = None
  /\ surcharge r = 0%Z.
Proof.
  vm_compute. repeat split; reflexivity.
Qed.

(** C3.  On every valid slab table, and for fixed deduction inputs, the
    total tax does not go down when the gross income goes up. *)
Theorem calculateTax_monotone
        (table : Regime -> SlabConfig) (params : Params) (a b : Q) :
  (forall r, valid_config (table r)) ->
  a <= b ->
  (totalTax (calculateTaxOn table (with_grossIncome params a))
   <= totalTax (calculateTaxOn table (with_grossIncome params b)))%Z.
Proof.
  intros Hv Hab. unfold calculateTaxOn. cbv zeta. cbn [totalTax].
  apply round_le.
  cbn [with_grossIncome grossIncome regime deductions80C deductions80D
       deductions80CCD homeLoanInterest hra ltcg stcg dflt].
  set (r := dflt (regime params) new).
  specialize (Hv r). set (cfg := table r) in *.
  match goal with
  | |- context [slabTax cfg (Qmax 0 ?e)] =>
      match e with context [a] => set (t1 := Qmax 0 e) end
  end.
  match goal with
  | |- context [slabTax cfg (Qmax 0 ?e)] =>
      match e with context [b] => set (t2 := Qmax 0 e) end
  end.
  assert (Ht : t1 <= t2).
  { subst t1 t2. destruct r.
    - qminmax; lra.
    - destruct (Qlt_bool 0 _); qminmax; lra. }
  clearbody t1 t2.
  destruct (taxes_on_gross_mono cfg t1 t2 Hv Ht) as [H0 Hm].
  cbv beta in H0, Hm.
  set (b1 := if Qle_bool t1 _ then _ else _) in *.
  set (b2 := if Qle_bool t2 _ then _ else _) in *.
  clearbody b1 b2.
  pose proof (surcharge_mono t1 t2 b1 b2 Ht H0 Hm).
  lra.
Qed.

(** The tables of the code, across the rebate limit of the new regime. *)
Lemma calculateTax_monotone_witness :
  (forall r, valid_config (taxSlabs r))
  /\ 775000 <= 775001
  /\ (totalTax (calculateTaxOn taxSlabs (with_grossIncome no_params 775000))
      <= totalTax
           (calculateTaxOn taxSlabs (with_grossIncome no_params 775001)))%Z.
Proof.
  split; [exact taxSlabs_valid |].
  split; [lra |].
  apply (calculateTax_monotone taxSlabs no_params 775000 775001).
  - exact taxSlabs_valid.
  - lra.
Defined.

(** C5 fails as stated.  With no income both regimes owe nothing and the
    recommendation is the old regime; and where the old regime is the
    cheaper one the reported difference is positive, not signed. *)
Lemma compareRegimes_tie_is_old :
  (let c := compareRegimes no_params in
   totalTax (c_old c) = totalTax (c_new c)
   /\ recommendedRegime c = old)
  /\ (let c := compareRegimes old_regime_saver in
      (totalTax (c_old c) < totalTax (c_new c))%Z
      /\ savings c = 33800%Z).
Proof.
  vm_compute. repeat split; reflexivity.
Qed.

(** C5, amended.  [compareRegimes] runs the engine once per regime,
    reports the absolute value of the difference of the two total taxes,
    and recommends the new regime exactly when it is strictly cheaper; on
    a tie the old regime is recommended. *)
Theorem compareRegimes_spec (params : Params) :
  let c := compareRegimes params in
  c_old c = calculateTax (with_regime params old)
  /\ c_new c = calculateTax (with_regime params new)
  /\ savings c = Z.abs (totalTax (c_old c) - totalTax (c_new c))
  /\ recommendedRegime c
     = (if (totalTax (c_new c) <? totalTax (c_old c))%Z then new else old)
  /\ (if (totalTax (c_old c) =? totalTax (c_new c))%Z
      then recommendedRegime c = old else True).
Proof.
  cbv zeta. unfold compareRegimes. cbv zeta.
  cbn [c_old c_new savings recommendedRegime].
  set (o := totalTax (calculateTax (with_regime params old))).
  set (n := totalTax (calculateTax (with_regime params new))).
  repeat split.
  - destruct (Z.ltb_spec 0 (o - n)); destruct (Z.ltb_spec n o);
      try reflexivity; lia.
  - destruct (Z.eqb_spec o n); [| exact I].
    destruct (Z.ltb_spec 0 (o - n)); [lia | reflexivity].
Qed.

(** C10.  The effective rate is an ordinary number for every input, and it
    is 0 whenever the gross income is not strictly positive: the division
    by the gross income is only made behind the test [grossIncome > 0]. *)
Theorem effectiveRate_guarded (params : Params) :
  finite (effectiveRate (calculateTax params))
  /\ (dflt (grossIncome params) 0 <= 0 ->
      effectiveRate (calculateTax params) = Num 0).
Proof.
  unfold calculateTax, calculateTaxOn. cbv zeta. cbn [effectiveRate].
  set (g := dflt (grossIncome params) 0).
  destruct (Qlt_bool 0 g) eqn:E; qtests.
  - split; [| intro H; lra].
    unfold div.
    destruct (Qeq_bool g 0) eqn:E0; qtests; [lra |].
    exact I.
  - split; [exact I | reflexivity].
Qed.

Lemma effectiveRate_guarded_witness :
  dflt (grossIncome no_params) 0 <= 0
  /\ effectiveRate (calculateTax no_params) = Num 0.
Proof.
  split.
  - simpl. lra.
  - apply (effectiveRate_guarded no_params). simpl. lra.
Defined.

End TaxClaims.

(** ** Monte Carlo engine *)

Section MonteCarloFacts.
Import JS MonteCarlo.

(** Once the fuel covers the months left below the cap of 600, more fuel
    changes nothing: the loop of [calculateYearsToTarget] has left. *)
Lemma accumulate_fuel (r c t : Q) (f1 f2 months : nat) (value : Q) :
  (600 - months <= f1)%nat -> (600 - months <= f2)%nat ->
  accumulate r c t f1 months value = accumulate r c t f2 months value.
Proof.
  revert f2 months value.
  induction f1 as [| f1 IH]; intros f2 months value H1 H2.
  - destruct f2 as [| f2]; [reflexivity |]. simpl.
    destruct (Nat.ltb_spec months 600); [lia |].
    rewrite andb_false_r. reflexivity.
  - destruct f2 as [| f2]; simpl.
    + destruct (Nat.ltb_spec months 600); [lia |].
      rewrite andb_false_r. reflexivity.
    + destruct (Qlt_bool value t && (months <? 600)%nat) eqn:E;
        [| reflexivity].
      apply andb_true_iff in E. destruct E as [_ E].
      apply Nat.ltb_lt in E.
      apply IH; lia.
Qed.

(** The month counter never passes the cap. *)
Lemma accumulate_le_600 (r c t : Q) (fuel months : nat) (value : Q) :
  (months <= 600)%nat ->
  (fst (accumulate r c t fuel months value) <= 600)%nat.
Proof.
  revert months value.
  induction fuel as [| fuel IH]; intros months value H; simpl.
  - exact H.
  - destruct (Qlt_bool value t && (months <? 600)%nat) eqn:E; simpl.
    + apply andb_true_iff in E. destruct E as [_ E].
      apply Nat.ltb_lt in E. apply IH. lia.
    + exact H.
Qed.

Lemma trials_no_months (gen : nat -> Q -> Q -> Q) (ar av mc c : Q)
      (n draws : nat) (results : list Q) :
  trials gen ar av mc n 0 c draws results = results ++ repeat c n.
Proof.
  revert draws results.
  induction n as [| n IH]; intros draws results; simpl.
  - rewrite app_nil_r. reflexivity.
  - rewrite IH. rewrite <- app_assoc. reflexivity.
Qed.

Lemma sort_repeat (c : Q) (n : nat) :
  sort (fun a b => a - b) (repeat c n) = repeat c n.
Proof.
  unfold sort. induction n as [| n IH]; simpl; [reflexivity |].
  rewrite IH. destruct n as [| n]; simpl; [reflexivity |].
  assert (E : Qle_bool (c - c) 0 = true) by (apply Qle_bool_iff; lra).
  rewrite E. reflexivity.
Qed.

Lemma filter_repeat (f : Q -> bool) (c : Q) (n : nat) :
  filter f (repeat c n) = if f c then repeat c n else [].
Proof.
  induction n as [| n IH]; simpl.
  - destruct (f c); reflexivity.
  - rewrite IH. destruct (f c); reflexivity.
Qed.

(** A nearest-rank index [floor(n * p)] with [0 <= p < 1] lies inside an
    array of [n >= 1] entries. *)
Lemma rank_in_range (n : nat) (p : Q) :
  (1 <= n)%nat -> 0 <= p -> p < 1 ->
  (0 <= floor (inject_Z (Z.of_nat n) * p) < Z.of_nat n)%Z.
Proof.
  intros Hn H0 H1. unfold floor.
  assert (Hq : 1 <= inject_Z (Z.of_nat n)).
  { change 1 with (inject_Z 1). rewrite <- Zle_Qle. lia. }
  set (q := inject_Z (Z.of_nat n)) in *.
  assert (Hp : 0 <= q * p) by (apply Qmult_le_0_compat; lra).
  assert (Hlt : q * p < q).
  { setoid_replace q with (q * 1) at 2 by ring.
    apply Qmult_lt_l; lra. }
  split.
  - change 0%Z with (Qfloor 0). apply Qfloor_resp_le. exact Hp.
  - rewrite Zlt_Qlt. pose proof (Qfloor_le (q * p)). fold q. lra.
Qed.

Lemma round_at_repeat (c : Q) (n : nat) (i : Z) :
  (0 <= i < Z.of_nat n)%Z ->
  round_at (repeat c n) i = Num (inject_Z (round c)).
Proof.
  intros [H0 H1]. unfold round_at, at_index.
  destruct (Z.ltb_spec i 0); [lia |].
  rewrite nth_error_repeat by lia. reflexivity.
Qed.

End MonteCarloFacts.

Section MonteCarloClaims.
Import JS MonteCarlo.

(** C6 fails as stated.  With [years = 0], one trial and a current amount
    of one half, the median returned is 1: the percentiles are rounded to
    the nearest integer. *)
Lemma simulateGoal_percentile_is_rounded :
  let r :=
    simulateGoal (fun _ _ _ => 0)
      {| currentAmount := Some (1 # 2); monthlyContribution := None;
         expectedReturn := None; volatility := None; years := Some 0;
         targetAmount := None; iterations := Some 1%nat |} in
  p50 (percentiles r) = Num 1 /\ ~ is_num (p50 (percentiles r)) (1 # 2).
Proof.
  vm_compute. split; [reflexivity | discriminate].
Qed.

(** C6, amended.  For at least one iteration and [years = 0], whatever the
    random draws, the probability returned is 1 when the current amount
    reaches the target and 0 otherwise, and each of the five percentiles is
    the current amount rounded to the nearest integer. *)
Theorem simulateGoal_zero_years
        (gen : nat -> Q -> Q -> Q) (params : GoalParams) :
  (1 <= dflt (iterations params) 1000)%nat ->
  dflt (years params) 5 == 0 ->
  let r := simulateGoal gen params in
  let c := dflt (currentAmount params) 0 in
  let t := dflt (targetAmount params) 0 in
  is_num (probability r) (if Qle_bool t c then 1 else 0)
  /\ p10 (percentiles r) = Num (inject_Z (round c))
  /\ p25 (percentiles r) = Num (inject_Z (round c))
  /\ p50 (percentiles r) = Num (inject_Z (round c))
  /\ p75 (percentiles r) = Num (inject_Z (round c))
  /\ p90 (percentiles r) = Num (inject_Z (round c)).
Proof.
  intros Hn Hy. cbv zeta. unfold simulateGoal. cbv zeta.
  cbn [probability percentiles p10 p25 p50 p75 p90].
  set (n := dflt (iterations params) 1000%nat) in *.
  set (c := dflt (currentAmount params) 0).
  set (t := dflt (targetAmount params) 0).
  assert (Hm : round (dflt (years params) 5 * 12) = 0%Z).
  { apply round_eq_Z. rewrite Hy. reflexivity. }
  rewrite Hm. change (Z.to_nat 0) with 0%nat.
  rewrite trials_no_months. rewrite app_nil_l. rewrite sort_repeat.
  split.
  - rewrite filter_repeat.
    assert (Hq : ~ inject_Z (Z.of_nat n) == 0).
    { intro H. change 0 with (inject_Z 0) in H.
      apply (proj1 (inject_Z_injective _ _)) in H. lia. }
    unfold div. apply Qeq_bool_false in Hq. rewrite Hq.
    apply Qeq_bool_false in Hq.
    destruct (Qle_bool t c); cbn [scale round_num is_num].
    + rewrite repeat_length.
      assert (E : round (inject_Z (Z.of_nat n) / inject_Z (Z.of_nat n) * 100)
                  = 100%Z).
      { apply round_eq_Z. field. exact Hq. }
      rewrite E. reflexivity.
    + simpl List.length.
      assert (E : round (inject_Z (Z.of_nat 0) / inject_Z (Z.of_nat n) * 100)
                  = 0%Z).
      { apply round_eq_Z. simpl (Z.of_nat 0). field. exact Hq. }
      rewrite E. reflexivity.
  - repeat split; apply round_at_repeat; apply rank_in_range;
      solve [exact Hn | lra].
Qed.

Lemma simulateGoal_zero_years_witness :
  let params :=
    {| currentAmount := Some (2001 # 2); monthlyContribution := Some 500;
       expectedReturn := None; volatility := None; years := Some 0;
       targetAmount := Some 1000; iterations := Some 10%nat |} in
  (1 <= dflt (iterations params) 1000)%nat
  /\ dflt (years params) 5 == 0
  /\ p90 (percentiles (simulateGoal (fun k _ _ => inject_Z (Z.of_nat k)) params))
     = Num (inject_Z (round (2001 # 2))).
Proof.
  cbv zeta. split; [simpl; lia |]. split; [reflexivity |].
  apply (simulateGoal_zero_years
           (fun k _ _ => inject_Z (Z.of_nat k))
           {| currentAmount := Some (2001 # 2);
              monthlyContribution := Some 500;
              expectedReturn := None; volatility := None; years := Some 0;
              targetAmount := Some 1000; iterations := Some 10%nat |}).
  - simpl. lia.
  - reflexivity.
Defined.

(** C8: the code leaves the claim at the cap.  With nothing saved, a
    contribution of 1 a month and no return, a target of 600 is met by the
    value reached after exactly 600 months, and [null] is returned; one
    unit less of target gives 599 months. *)
Theorem calculateYearsToTarget_met_at_cap :
  let p t :=
    {| t_currentAmount := Some 0; t_monthlyContribution := Some 1;
       t_expectedReturn := Some 0; t_targetAmount := Some t |} in
  calculateYearsToTarget (p 600) = None
  /\ accumulate (0 / 100 / 12) 1 600 600 0 0 = (600%nat, 600)
  /\ calculateYearsToTarget (p 599) = Some 599%nat.
Proof.
  vm_compute. repeat split; reflexivity.
Qed.

(** C4: the code has no branch for a zero rate.  Whenever the expected
    return is 0 and the target lies above the current amount, the annuity
    formula divides 0 by 0 and the result is [NaN], not the remaining amount
    divided by the number of months. *)
Theorem calculateRequiredSIP_zero_rate `{MathPow} (params : SIPParams) :
  dflt (s_expectedReturn params) 12 == 0 ->
  dflt (s_currentAmount params) 0 < dflt (s_targetAmount params) 1000000 ->
  calculateRequiredSIP params = NaN.
Proof.
  intros He Hlt. unfold calculateRequiredSIP. cbv zeta.
  set (e := dflt (s_expectedReturn params) 12) in *.
  set (c := dflt (s_currentAmount params) 0) in *.
  set (t := dflt (s_targetAmount params) 1000000) in *.
  set (m := dflt (s_years params) 5 * 12).
  assert (Hr : e / 100 / 12 == 0) by (rewrite He; reflexivity).
  assert (Hp : pow (1 + e / 100 / 12) m == 1).
  { transitivity (pow 1 m); [| apply pow_one].
    apply pow_proper; [| reflexivity].
    rewrite Hr. reflexivity. }
  destruct (Qle_bool (t - c * pow (1 + e / 100 / 12) m) 0) eqn:E; qtests.
  - rewrite Hp in E. lra.
  - unfold div.
    assert (E1 : Qeq_bool (pow (1 + e / 100 / 12) m - 1) 0 = true).
    { apply Qeq_bool_iff. rewrite Hp. reflexivity. }
    assert (E2 : Qeq_bool ((t - c * pow (1 + e / 100 / 12) m)
                           * (e / 100 / 12)) 0 = true).
    { apply Qeq_bool_iff.
      generalize (t - c * pow (1 + e / 100 / 12) m). intro x.
      rewrite Hr. ring. }
    rewrite E1, E2. reflexivity.
Qed.

Lemma calculateRequiredSIP_zero_rate_witness :
  let params :=
    {| s_currentAmount := Some 0; s_expectedReturn := Some 0;
       s_targetAmount := Some 120000; s_years := Some 1 |} in
  dflt (s_expectedReturn params) 12 == 0
  /\ dflt (s_currentAmount params) 0 < dflt (s_targetAmount params) 1000000
  /\ 120000 / 12 == 10000
  /\ calculateRequiredSIP (H := whole_pow) params = NaN.
Proof.
  cbv zeta. split; [reflexivity |]. split; [reflexivity |].
  split; [reflexivity |].
  apply (calculateRequiredSIP_zero_rate (H := whole_pow)
           {| s_currentAmount := Some 0; s_expectedReturn := Some 0;
              s_targetAmount := Some 120000; s_years := Some 1 |});
    reflexivity.
Defined.

End MonteCarloClaims.

(** ** Inflation engine *)

Section InflationClaims.
Import JS Inflation.

(** C9.  For [X > 0], [Y >= 0] and [R >= 0], taking the present value of
    the future value of [X] over the same years and at the same rate gives
    [X] back: [futureValue] multiplies by [pow (1 + R/100) Y] and
    [presentValue] divides by it. *)
Theorem presentValue_futureValue `{MathPow} (X Y R : Q) :
  0 < X -> 0 <= Y -> 0 <= R ->
  futureValue X Y (Some R) == X * pow (1 + R / 100) Y
  /\ presentValue (futureValue X Y (Some R)) Y (Some R) == X.
Proof.
  intros HX HY HR. unfold presentValue, futureValue. cbn [dflt].
  assert (Hb : 0 < 1 + R / 100) by qlra.
  pose proof (pow_pos (1 + R / 100) Y Hb) as Hp.
  split; [reflexivity |].
  field. intro H0. rewrite H0 in Hp. lra.
Qed.

Lemma presentValue_futureValue_witness :
  0 < 100 /\ 0 <= 2 /\ 0 <= 10
  /\ futureValue (H := whole_pow) 100 2 (Some 10) == 121
  /\ presentValue (H := whole_pow)
       (futureValue (H := whole_pow) 100 2 (Some 10)) 2 (Some 10) == 100.
Proof.
  split; [lra |]. split; [lra |]. split; [lra |].
  split; [reflexivity |].
  apply (presentValue_futureValue (H := whole_pow) 100 2 10); lra.
Defined.

End InflationClaims.

(** ** Debt payoff engine *)

Section DebtFacts.
Import JS DebtSnowball.

Lemma insert_perm {A : Type} (cmp : A -> A -> Q) (x : A) (l : list A) :
  Permutation (insert cmp x l) (x :: l).
Proof.
  induction l as [| y l IH]; simpl.
  - apply Permutation_refl.
  - destruct (Qle_bool (cmp x y) 0).
    + apply Permutation_refl.
    + apply Permutation_trans with (y :: x :: l).
      * apply perm_skip. exact IH.
      * apply perm_swap.
Qed.

Lemma sort_perm {A : Type} (cmp : A -> A -> Q) (l : list A) :
  Permutation (sort cmp l) l.
Proof.
  unfold sort. induction l as [| x l IH]; simpl.
  - apply Permutation_refl.
  - apply Permutation_trans with (x :: fold_right (insert cmp) [] l).
    + apply insert_perm.
    + apply perm_skip. exact IH.
Qed.











Lemma existsb_perm {A : Type} (f : A -> bool) (l l' : list A) :
  Permutation l l' -> existsb f l = existsb f l'.
Proof.
  intro H. induction H as [| x l l' _ IH | x y l | l l' l'' _ IH1 _ IH2];
    simpl.
  - reflexivity.
  - rewrite IH. reflexivity.
  - destruct (f x), (f y); reflexivity.
  - congruence.
Qed.

Lemma minLoop_perm (fuel : nat) :
  forall month ms ms', Permutation ms ms' ->
  fst (minLoop fuel month ms) = fst (minLoop fuel month ms')
  /\ Permutation (snd (minLoop fuel month ms)) (snd (minLoop fuel month ms')).
Proof.
  induction fuel as [| fuel IH]; intros month ms ms' H; simpl.
  - split; [reflexivity | exact H].
  - rewrite (existsb_perm _ ms ms' H).
    destruct (existsb _ ms' && (month <? 600)%nat); simpl.
    + apply IH. apply Permutation_map. exact H.
    + split; [reflexivity | exact H].
Qed.

Section Sums.
Context {A : Type} (f : A -> Q).

Lemma sum_from (l : list A) (a : Q) :
  fold_left (fun sum d => sum + f d) l a
  == a + fold_left (fun sum d => sum + f d) l 0.
Proof.
  revert a. induction l as [| x l IH]; intro a; simpl.
  - ring.
  - rewrite (IH (a + f x)). rewrite (IH (0 + f x)). ring.
Qed.

Lemma sum_perm (l l' : list A) :
  Permutation l l' ->
  fold_left (fun sum d => sum + f d) l 0
  == fold_left (fun sum d => sum + f d) l' 0.
Proof.
  intro H. induction H as [| x l l' _ IH | x y l | l l' l'' _ IH1 _ IH2];
    simpl.
  - reflexivity.
  - rewrite (sum_from l). rewrite (sum_from l'). rewrite IH. reflexivity.
  - rewrite (sum_from l (0 + f y + f x)).
    rewrite (sum_from l (0 + f x + f y)). ring.
  - rewrite IH1. exact IH2.
Qed.
End Sums.




Lemma payoffOrder_perm (method : string) (ds : list Analyzed) :
  Permutation (payoffOrder method ds) (map simStart ds).
Proof.
  unfold payoffOrder. destruct (String.eqb method "avalanche");
    apply sort_perm.
Qed.

Lemma analyzeDebts_perm (l : list Liability) :
  Permutation (debts (analyzeDebts l)) (map analyzeDebt l).
Proof.
  unfold analyzeDebts. destruct l as [| d l]; cbn [debts].
  - apply Permutation_refl.
  - apply sort_perm.
Qed.

Lemma simulateMinimumPayments_run (l : list Liability) :
  months (simulateMinimumPayments l) = fst (minimumPaymentsRun l)
  /\ totalPaid (simulateMinimumPayments l)
     = fold_left (fun sum d => sum + m_paid d) (snd (minimumPaymentsRun l)) 0.
Proof.
  unfold simulateMinimumPayments.
  destruct (minimumPaymentsRun l) as [month ds]. split; reflexivity.
Qed.


End DebtFacts.

Section DebtClaims.
Import JS DebtSnowball.

(** C2: the code frees an installment for one month only.  The small debt
    reaches zero in month 2, and in that month the large debt receives its
    installment of 500 plus the freed 600.  In month 3 the large debt is the
    first debt with a positive balance and receives 500, its installment
    alone; the claim asks for 500 + 600 = 1100 in month 3 and after. *)
Theorem createPayoffPlan_freed_installment_one_month :
  option_map (fun p => firstn 3 (plan p))
             (createPayoffPlan [small_debt; large_debt] (Some 0)
                               (Some "snowball"%string))
  = Some
      [ {| month := 1;
           payments :=
             [ {| row_name := "A"; row_payment := 600; row_interest := 0;
                  row_principal := 600; row_balance := 400 |};
               {| row_name := "B"; row_payment := 500; row_interest := 0;
                  row_principal := 500; row_balance := 9500 |} ] |};
        {| month := 2;
           payments :=
             [ {| row_name := "A"; row_payment := 400; row_interest := 0;
                  row_principal := 400; row_balance := 0 |};
               {| row_name := "B"; row_payment := 1100; row_interest := 0;
                  row_principal := 1100; row_balance := 8400 |} ] |};
        {| month := 3;
           payments :=
             [ {| row_name := "B"; row_payment := 500; row_interest := 0;
                  row_principal := 500; row_balance := 7900 |} ] |} ].
Proof.
  vm_compute. reflexivity.
Qed.




End DebtClaims.

(** * Further properties of the engines *)

Section SortFacts.
Import JS.
Context {A : Type} (cmp : A -> A -> Q) (R : A -> A -> Prop).
Hypothesis R_before : forall x y, Qle_bool (cmp x y) 0 = true -> R x y.
Hypothesis R_after : forall x y, Qle_bool (cmp x y) 0 = false -> R y x.
Hypothesis R_trans : forall x y z, R x y -> R y z -> R x z.

Lemma insert_sorted_by (x : A) (l : list A) :
  StronglySorted R l -> StronglySorted R (insert cmp x l).
Proof.
  intro H. induction H as [| y l Hl IH Hy]; simpl.
  - constructor; constructor.
  - destruct (Qle_bool (cmp x y) 0) eqn:E.
    + constructor; [constructor; assumption |].
      constructor; [apply R_before; exact E |].
      eapply Forall_impl; [| exact Hy]. intros z Hz.
      apply (R_trans x y z); [apply R_before; exact E | exact Hz].
    + constructor; [exact IH |].
      eapply Permutation_Forall;
        [apply Permutation_sym; apply insert_perm |].
      constructor; [apply R_after; exact E | exact Hy].
Qed.

Lemma sort_sorted_by (l : list A) : StronglySorted R (sort cmp l).
Proof.
  unfold sort. induction l as [| x l IH]; simpl.
  - constructor.
  - apply insert_sorted_by. exact IH.
Qed.
End SortFacts.

(** ** Tax calculator *)

Section TaxExtras.
Import JS TaxCalculator.

Lemma surchargeOn_nonneg (t b : Q) : 0 <= b -> 0 <= surchargeOn t b.
Proof.
  intro Hb. unfold surchargeOn.
  repeat match goal with
    | |- context [if ?c then _ else _] => destruct c
    end; lra.
Qed.

Lemma capitalGains_nonneg (l s : Q) : 0 <= capitalGains l s.
Proof.
  unfold capitalGains, ltcgRate, stcgRate, ltcgExemption. cbv zeta.
  destruct (Qlt_bool 0 l) eqn:El; destruct (Qlt_bool 0 s) eqn:Es;
    qtests; qminmax; qlra.
Qed.

(** X1.  No amount owed is negative, whatever the inputs. *)
Theorem calculateTax_nonneg (params : Params) :
  let r := calculateTax params in
  (0 <= baseTax r)%Z /\ (0 <= surcharge r)%Z /\ (0 <= cess r)%Z
  /\ (0 <= capitalGainsTax r)%Z /\ (0 <= totalTax r)%Z.
Proof.
  cbv zeta. unfold calculateTax, calculateTaxOn. cbv zeta.
  cbn [baseTax surcharge cess capitalGainsTax totalTax].
  set (cfg := taxSlabs (dflt (regime params) new)).
  pose proof (taxSlabs_valid (dflt (regime params) new)) as Hv. fold cfg in Hv.
  match goal with
  | |- context [slabTax cfg ?e] => set (t := e)
  end.
  destruct (taxes_on_gross_mono cfg t t Hv ltac:(lra)) as [H0 _].
  cbv beta in H0.
  set (b := if Qle_bool t _ then _ else _) in *. clearbody b.
  pose proof (surchargeOn_nonneg t b H0) as Hs.
  pose proof (capitalGains_nonneg (dflt (ltcg params) 0)
                (dflt (stcg params) 0)) as Hc.
  repeat split; apply round_nonneg; lra.
Qed.

(** X2.  At or below the rebate limit of its regime the income bears no slab
    tax: the rebate cancels it, and the total is the tax on capital gains. *)
Theorem calculateTax_rebate_cancels (params : Params) :
  let r := calculateTax params in
  let cfg := taxSlabs (dflt (regime params) new) in
  taxableIncome (breakdown r) <= limit (rebate87A cfg) ->
  baseTax r = 0%Z /\ surcharge r = 0%Z /\ cess r = 0%Z
  /\ totalTax r = capitalGainsTax r.
Proof.
  cbv zeta. unfold calculateTax, calculateTaxOn. cbv zeta.
  cbn [baseTax surcharge cess capitalGainsTax totalTax breakdown
       taxableIncome].
  set (rg := dflt (regime params) new).
  set (cfg := taxSlabs rg).
  pose proof (taxSlabs_valid rg) as Hv. fold cfg in Hv.
  match goal with
  | |- context [slabTax cfg ?e] => set (t := e)
  end.
  intro Hle.
  pose proof (slabTax_mono cfg t _ Hv Hle) as Hm.
  pose proof (slabTax_nonneg cfg t Hv) as H0.
  assert (Hcap : slabTax cfg (limit (rebate87A cfg))
                 <= maxRebate (rebate87A cfg)).
  { subst cfg. destruct rg; vm_compute; discriminate. }
  assert (E : Qle_bool t (limit (rebate87A cfg)) = true)
    by (apply Qle_bool_iff; exact Hle).
  rewrite E.
  assert (Hb : slabTax cfg t
               - Qmin (slabTax cfg t) (maxRebate (rebate87A cfg)) == 0).
  { qminmax; lra. }
  set (b := slabTax cfg t - Qmin _ _) in *. clearbody b.
  assert (Hs : surchargeOn t b == 0).
  { unfold surchargeOn.
    repeat match goal with
      | |- context [if ?c then _ else _] => destruct c
      end; rewrite ?Hb; ring. }
  set (s := surchargeOn t b) in *. clearbody s.
  set (c := capitalGains _ _). clearbody c.
  repeat split.
  - apply round_eq_Z. exact Hb.
  - apply round_eq_Z. exact Hs.
  - apply round_eq_Z. rewrite Hb, Hs. reflexivity.
  - unfold round. apply Qfloor_comp. rewrite Hb, Hs. ring.
Qed.

Lemma calculateTax_rebate_cancels_witness :
  taxableIncome
    (breakdown (calculateTax (with_grossIncome no_params 775000)))
  <= limit (rebate87A (taxSlabs new))
  /\ totalTax (calculateTax (with_grossIncome no_params 775000)) = 0%Z
  /\ totalTax (calculateTax (with_grossIncome no_params 775001)) = 15600%Z.
Proof.
  assert (H : taxableIncome
                (breakdown (calculateTax (with_grossIncome no_params 775000)))
              <= limit (rebate87A (taxSlabs new))).
  { vm_compute. discriminate. }
  split; [exact H |]. split; [| vm_compute; reflexivity].
  destruct (calculateTax_rebate_cancels
              (with_grossIncome no_params 775000) H) as (_ & _ & _ & ->).
  vm_compute. reflexivity.
Defined.

(** X3.  Under the new regime the itemized deductions and the HRA exemption are
    not read: the whole result is the one obtained without them. *)
Theorem calculateTax_new_ignores_deductions (params : Params) :
  dflt (regime params) new = new ->
  calculateTax params = calculateTax (without_deductions params).
Proof.
  intro Hr. unfold calculateTax, calculateTaxOn. cbv zeta.
  cbn [without_deductions grossIncome regime deductions80C deductions80D
       deductions80CCD homeLoanInterest hra ltcg stcg].
  rewrite Hr. reflexivity.
Qed.

Lemma calculateTax_new_ignores_deductions_witness :
  dflt (regime old_regime_saver) new = new
  /\ totalTax (calculateTax old_regime_saver)
     = totalTax (calculateTax (without_deductions old_regime_saver)).
Proof.
  split; [reflexivity |].
  rewrite (calculateTax_new_ignores_deductions old_regime_saver);
    reflexivity.
Defined.

(** X4.  A larger 80C contribution never raises the total tax. *)
Theorem calculateTax_deduction_never_raises (params : Params) (a b : Q) :
  a <= b ->
  (totalTax (calculateTax (with_deductions80C params b))
   <= totalTax (calculateTax (with_deductions80C params a)))%Z.
Proof.
  intro Hab. unfold calculateTax, calculateTaxOn. cbv zeta. cbn [totalTax].
  apply round_le.
  cbn [with_deductions80C grossIncome regime deductions80C deductions80D
       deductions80CCD homeLoanInterest hra ltcg stcg dflt].
  set (r := dflt (regime params) new).
  pose proof (taxSlabs_valid r) as Hv. set (cfg := taxSlabs r) in *.
  match goal with
  | |- context [slabTax cfg (Qmax 0 ?e)] =>
      match e with context [b] => set (t1 := Qmax 0 e) end
  end.
  match goal with
  | |- context [slabTax cfg (Qmax 0 ?e)] =>
      match e with context [a] => set (t2 := Qmax 0 e) end
  end.
  assert (Ht : t1 <= t2).
  { subst t1 t2. destruct r.
    - qminmax; lra.
    - destruct (Qlt_bool 0 _); unfold section80CLimit; qminmax; lra. }
  clearbody t1 t2.
  destruct (taxes_on_gross_mono cfg t1 t2 Hv Ht) as [H0 Hm].
  cbv beta in H0, Hm.
  set (b1 := if Qle_bool t1 _ then _ else _) in *.
  set (b2 := if Qle_bool t2 _ then _ else _) in *.
  clearbody b1 b2.
  pose proof (surcharge_mono t1 t2 b1 b2 Ht H0 Hm).
  lra.
Qed.

Lemma calculateTax_deduction_never_raises_witness :
  50000 <= 150000
  /\ (totalTax (calculateTax (with_deductions80C
                               (with_regime old_regime_saver old) 150000))
      <= totalTax (calculateTax (with_deductions80C
                                  (with_regime old_regime_saver old) 50000)))%Z.
Proof.
  split; [lra |].
  apply (calculateTax_deduction_never_raises
           (with_regime old_regime_saver old) 50000 150000).
  lra.
Defined.

Lemma bracket_never_lower (a b : Q) (regime : option Regime) :
  a <= b -> getTaxBracket a regime <= getTaxBracket b regime.
Proof.
  intro Hab. unfold getTaxBracket.
  destruct (dflt regime new); cbn [taxSlabs slabs rev app bracketFrom min rate];
    repeat match goal with
      | |- context [if ?c then _ else _] => destruct c eqn:?
      end; qtests; lra.
Qed.

(** X5.  The bracket returned is the rate of the slab the income lies in
    (0 when the income is not positive): it lies between 0 and 30, and it
    never goes down when the income goes up. *)
Theorem getTaxBracket_monotone (a b : Q) (regime : option Regime) :
  a <= b ->
  getTaxBracket a regime <= getTaxBracket b regime
  /\ 0 <= getTaxBracket a regime /\ getTaxBracket a regime <= 30
  /\ (a <= 0 -> getTaxBracket a regime == 0).
Proof.
  intro Hab. split; [apply bracket_never_lower; exact Hab |].
  unfold getTaxBracket.
  destruct (dflt regime new); cbn [taxSlabs slabs rev app bracketFrom min rate];
    repeat match goal with
      | |- context [if ?c then _ else _] => destruct c eqn:?
      end; qtests; (split; [lra | split; [lra | intro; lra]]).
Qed.

Lemma getTaxBracket_monotone_witness :
  1200000 <= 1200001
  /\ getTaxBracket 1200000 None == 10
  /\ getTaxBracket 1200001 None == 15
  /\ getTaxBracket 1200000 None <= getTaxBracket 1200001 None.
Proof.
  split; [lra |]. split; [reflexivity |]. split; [reflexivity |].
  destruct (getTaxBracket_monotone 1200000 1200001 None) as [H _];
    [lra | exact H].
Defined.

(** X6.  An income that does not rise never reports a bracket change. *)
Theorem checkTaxBracketChange_not_on_decrease
        (previousIncome newIncome : Q) (regime : option Regime) :
  newIncome <= previousIncome ->
  checkTaxBracketChange previousIncome newIncome regime
  = {| changed := false; previousBracket := None; newBracket := None |}.
Proof.
  intro H. unfold checkTaxBracketChange. cbv zeta.
  assert (Hm : newIncome * 12 <= previousIncome * 12) by lra.
  pose proof (bracket_never_lower _ _ (Some (dflt regime new)) Hm) as Hb.
  destruct (Qlt_bool _ _) eqn:E; [| reflexivity].
  qtests. lra.
Qed.

Lemma checkTaxBracketChange_not_on_decrease_witness :
  90000 <= 110000
  /\ changed (checkTaxBracketChange 110000 90000 None) = false
  /\ changed (checkTaxBracketChange 90000 110000 None) = true.
Proof.
  split; [lra |]. split; [| reflexivity].
  rewrite (checkTaxBracketChange_not_on_decrease 110000 90000 None);
    [reflexivity | lra].
Defined.


(** X7.  The regime recommended by [compareRegimes] is never the dearer one,
    and the saving it reports is not negative. *)
Theorem compareRegimes_recommends_cheapest (params : Params) (r : Regime) :
  let c := compareRegimes params in
  (totalTax (calculateTax (with_regime params (recommendedRegime c)))
   <= totalTax (calculateTax (with_regime params r)))%Z
  /\ (0 <= savings c)%Z.
Proof.
  cbv zeta. unfold compareRegimes. cbv zeta.
  cbn [recommendedRegime savings].
  set (o := totalTax (calculateTax (with_regime params old))).
  set (n := totalTax (calculateTax (with_regime params new))).
  split; [| apply Z.abs_nonneg].
  destruct (Z.ltb_spec 0 (o - n)); destruct r; fold o; fold n; lia.
Qed.

(** X8.  With gains that are not negative, the gains worth harvesting lie
    between 0 and the exemption left, the exemption used and the exemption
    left add up to the exemption of 125,000, and the tax saved is at most
    15,625. *)
Theorem calculateHarvestingOpportunity_bounds
        (realizedGains unrealizedGains : option Q) :
  0 <= dflt realizedGains 0 -> 0 <= dflt unrealizedGains 0 ->
  let h := calculateHarvestingOpportunity realizedGains unrealizedGains in
  0 <= harvestingOpportunity h
  /\ harvestingOpportunity h <= remainingExemption h
  /\ harvestingOpportunity h <= dflt unrealizedGains 0
  /\ usedExemption h + remainingExemption h == exemptionLimit h
  /\ (0 <= taxSaved h <= 15625)%Z.
Proof.
  intros Hr Hu. cbv zeta. unfold calculateHarvestingOpportunity. cbv zeta.
  cbn [harvestingOpportunity remainingExemption usedExemption
       exemptionLimit taxSaved].
  set (rg := dflt realizedGains 0) in *.
  set (ug := dflt unrealizedGains 0) in *.
  unfold ltcgExemption, ltcgRate.
  assert (Hh : 0 <= Qmin (Qmax 0 (125000 - rg)) ug
               /\ Qmin (Qmax 0 (125000 - rg)) ug <= 125000).
  { qminmax; split; lra. }
  repeat split.
  - tauto.
  - apply Q.le_min_l.
  - apply Q.le_min_r.
  - qminmax; lra.
  - apply round_nonneg. destruct Hh. qlra.
  - change 15625%Z with (round 15625). apply round_le.
    destruct Hh. qlra.
Qed.

Lemma calculateHarvestingOpportunity_bounds_witness :
  0 <= dflt (Some 100000) 0 /\ 0 <= dflt (Some 40000) 0
  /\ harvestingOpportunity
       (calculateHarvestingOpportunity (Some 100000) (Some 40000)) == 25000
  /\ (let h := calculateHarvestingOpportunity (Some 100000) (Some 40000) in
      (0 <= taxSaved h <= 15625)%Z).
Proof.
  assert (H1 : 0 <= dflt (Some 100000) 0) by (simpl; lra).
  assert (H2 : 0 <= dflt (Some 40000) 0) by (simpl; lra).
  split; [exact H1 |]. split; [exact H2 |]. split; [reflexivity |].
  apply (calculateHarvestingOpportunity_bounds (Some 100000) (Some 40000)
           H1 H2).
Defined.

(** X9.  For a pre-tax return that is not negative and a tax bracket between 0
    and 100, no kind of investment returns more after tax than before, or
    less than nothing. *)
Theorem calculatePostTaxReturn_bounds (params : ReturnParams) :
  0 <= dflt (preTaxReturn params) 10 ->
  0 <= dflt (taxBracket params) 30 <= 100 ->
  0 <= calculatePostTaxReturn params
  /\ calculatePostTaxReturn params <= dflt (preTaxReturn params) 10.
Proof.
  intros Hp [Hb0 Hb1]. unfold calculatePostTaxReturn. cbv zeta.
  set (p := dflt (preTaxReturn params) 10) in *.
  set (b := dflt (taxBracket params) 30) in *.
  assert (Hk : 0 <= 1 - b / 100 /\ 1 - b / 100 <= 1) by (split; qlra).
  assert (Hn : 0 <= 1 - (4 # 10) * b / 100
               /\ 1 - (4 # 10) * b / 100 <= 1) by (split; qlra).
  destruct Hk as [Hk0 Hk1]. destruct Hn as [Hn0 Hn1].
  pose proof (Qmult_le_0_compat _ _ Hp Hk0).
  pose proof (Qmult_le_0_compat _ _ Hp Hn0).
  pose proof (Qmult_le_compat_nonneg p p (1 - b / 100) 1
                ltac:(split; lra) ltac:(split; lra)).
  pose proof (Qmult_le_compat_nonneg p p (1 - (4 # 10) * b / 100) 1
                ltac:(split; lra) ltac:(split; lra)).
  set (x := p * (1 - b / 100)) in *.
  set (y := p * (1 - (4 # 10) * b / 100)) in *.
  clearbody x y.
  repeat match goal with
    | |- context [if ?c then _ else _] => destruct c
    end; split; lra.
Qed.

Lemma calculatePostTaxReturn_bounds_witness :
  let params :=
    {| preTaxReturn := Some 8; investmentType := Some "nps"%string;
       holdingPeriod := None; taxBracket := Some 30 |} in
  0 <= dflt (preTaxReturn params) 10
  /\ 0 <= dflt (taxBracket params) 30 <= 100
  /\ calculatePostTaxReturn params == 704 # 100
  /\ calculatePostTaxReturn params <= dflt (preTaxReturn params) 10.
Proof.
  cbv zeta.
  split; [simpl; lra |]. split; [simpl; split; lra |].
  split; [reflexivity |].
  apply (calculatePostTaxReturn_bounds
           {| preTaxReturn := Some 8; investmentType := Some "nps"%string;
              holdingPeriod := None; taxBracket := Some 30 |}).
  - simpl. lra.
  - simpl. split; lra.
Defined.

Lemma or_else_zero (x : option Q) :
  or_else x 0 == match x with Some v => v | None => 0 end.
Proof.
  destruct x as [v |]; simpl; [| reflexivity].
  destruct (Qeq_bool v 0) eqn:E; qtests; [symmetry; exact E | reflexivity].
Qed.

Lemma assign_adds (breakdown : list (string * Q)) (t : string) (a : Q) :
  fold_right (fun e s => snd e + s) 0
             (assign breakdown t (or_else (lookup breakdown t) 0 + a))
  == fold_right (fun e s => snd e + s) 0 breakdown + a.
Proof.
  induction breakdown as [| [k w] rest IH]; simpl.
  - ring.
  - destruct (String.eqb k t); simpl.
    + destruct (Qeq_bool w 0) eqn:E; qtests; [rewrite E |]; ring.
    + rewrite IH. ring.
Qed.

Lemma add80C_accounts (l : list Investment) :
  forall st : Q * list (string * Q),
    fold_right (fun e s => snd e + s) 0 (snd st) == fst st ->
    fold_right (fun e s => snd e + s) 0 (snd (fold_left add80C l st))
    == fst (fold_left add80C l st).
Proof.
  induction l as [| inv l IH]; intros [total breakdown] H; cbn [fold_left].
  - exact H.
  - apply IH. unfold add80C. cbn [fst snd] in H.
    destruct (includes eligible80C (inv_type inv)); cbn [fst snd].
    + rewrite assign_adds. rewrite H. reflexivity.
    + exact H.
Qed.

(** X10.  The amounts of the breakdown add up to the total eligible amount; the
    amount utilized never passes the limit of 150,000, and with what
    remains it makes up the limit. *)
Theorem calculate80CUtilization_accounts (investments : list Investment) :
  let u := calculate80CUtilization investments in
  fold_right (fun e s => snd e + s) 0 (u_breakdown u) == totalEligible u
  /\ utilized u <= u_limit u
  /\ 0 <= remaining u
  /\ utilized u + remaining u == u_limit u.
Proof.
  cbv zeta. unfold calculate80CUtilization.
  pose proof (add80C_accounts investments (0, []) ltac:(reflexivity)) as H.
  destruct (fold_left add80C investments (0, [])) as [total breakdown].
  cbn [fst snd] in H.
  cbn [u_breakdown totalEligible utilized remaining u_limit].
  split; [exact H |].
  pose proof (Q.le_min_r total section80CLimit).
  repeat split; try assumption; lra.
Qed.

End TaxExtras.

(** ** Monte Carlo engine *)

Section MonteCarloExtras.
Import JS MonteCarlo.

Lemma valueAfter_comp (r c : Q) (k : nat) (v v' : Q) :
  v == v' -> valueAfter r c k v == valueAfter r c k v'.
Proof.
  revert v v'. induction k as [| k IH]; intros v v' H; simpl.
  - exact H.
  - apply IH. rewrite H. reflexivity.
Qed.

Lemma valueAfter_next (r c : Q) (k : nat) (v : Q) :
  valueAfter r c (S k) v == valueAfter r c k v * (1 + r) + c.
Proof.
  revert v. induction k as [| k IH]; intro v.
  - reflexivity.
  - change (valueAfter r c (S (S k)) v)
      with (valueAfter r c (S k) (v * (1 + r) + c)).
    rewrite IH. reflexivity.
Qed.

(** The loop of [calculateYearsToTarget] leaves at the first month whose
    value meets the target, or at the cap. *)
Lemma accumulate_first (r c t start : Q) (fuel : nat) :
  forall months value,
    value == valueAfter r c months start ->
    (forall j, (j < months)%nat -> valueAfter r c j start < t) ->
    (months <= 600)%nat -> (600 - months <= fuel)%nat ->
    let m := fst (accumulate r c t fuel months value) in
    (forall j, (j < m)%nat -> valueAfter r c j start < t)
    /\ (m <= 600)%nat
    /\ ((m < 600)%nat -> t <= valueAfter r c m start).
Proof.
  induction fuel as [| fuel IH]; intros months value Hv Hb Hm Hf; cbv zeta.
  - simpl. repeat split; [exact Hb | exact Hm | lia].
  - cbn [accumulate].
    destruct (Qlt_bool value t) eqn:E1; cbn [andb].
    + destruct (Nat.ltb_spec months 600) as [Hlt | Hge].
      * apply IH; [| | lia | lia].
        -- rewrite Qred_correct. rewrite valueAfter_next. rewrite Hv.
           reflexivity.
        -- intros j Hj. destruct (Nat.eq_dec j months) as [-> | Hne].
           ++ qtests. rewrite <- Hv. exact E1.
           ++ apply Hb. lia.
      * cbn [fst]. repeat split; [exact Hb | exact Hm | lia].
    + cbn [fst]. repeat split; [exact Hb | exact Hm |].
      intros _. qtests. rewrite <- Hv. exact E1.
Qed.

(** X11.  [calculateYearsToTarget] returns [m] exactly when [m] is below 600 and
    is the first month at which the accumulated value meets the target. *)
Theorem calculateYearsToTarget_first_month (params : TargetParams) (m : nat) :
  let start := dflt (t_currentAmount params) 0 in
  let c := dflt (t_monthlyContribution params) 0 in
  let r := dflt (t_expectedReturn params) 12 / 100 / 12 in
  let t := dflt (t_targetAmount params) 1000000 in
  calculateYearsToTarget params = Some m
  <-> ((m < 600)%nat
       /\ t <= valueAfter r c m start
       /\ forall j, (j < m)%nat -> valueAfter r c j start < t).
Proof.
  cbv zeta. unfold calculateYearsToTarget. cbv zeta.
  set (start := dflt (t_currentAmount params) 0).
  set (c := dflt (t_monthlyContribution params) 0).
  set (r := dflt (t_expectedReturn params) 12 / 100 / 12).
  set (t := dflt (t_targetAmount params) 1000000).
  pose proof (accumulate_first r c t start 600 0 start
                ltac:(reflexivity) ltac:(intros; lia) ltac:(lia) ltac:(lia))
    as (Hb & Hm & Ht).
  destruct (accumulate r c t 600 0 start) as [m' v']. cbn [fst] in *.
  destruct (Nat.ltb_spec m' 600) as [Hlt | Hge]; split.
  - intro H. injection H as <-. auto.
  - intros (Hm6 & Hmt & Hmb). f_equal.
    destruct (Nat.lt_trichotomy m' m) as [Hl | [He | Hg]]; [| exact He |].
    + specialize (Hmb m' Hl). specialize (Ht Hlt). lra.
    + specialize (Hb m Hg). lra.
  - discriminate.
  - intros (Hm6 & Hmt & Hmb). exfalso.
    assert (Hl : (m < m')%nat) by lia.
    specialize (Hb m Hl). lra.
Qed.

Lemma calculateYearsToTarget_first_month_witness :
  let p :=
    {| t_currentAmount := Some 1000; t_monthlyContribution := Some 100;
       t_expectedReturn := Some 0; t_targetAmount := Some 1250 |} in
  calculateYearsToTarget p = Some 3%nat
  /\ 1250 <= valueAfter (0 / 100 / 12) 100 3 1000
  /\ valueAfter (0 / 100 / 12) 100 2 1000 < 1250.
Proof.
  cbv zeta.
  pose proof (proj1 (calculateYearsToTarget_first_month
                       {| t_currentAmount := Some 1000;
                          t_monthlyContribution := Some 100;
                          t_expectedReturn := Some 0;
                          t_targetAmount := Some 1250 |} 3%nat)
                    ltac:(vm_compute; reflexivity)) as (_ & H1 & H2).
  split; [vm_compute; reflexivity |].
  split; [exact H1 | apply (H2 2%nat); lia].
Defined.

(** X12.  [calculateYearsToTarget] returns [null] exactly when the value stays
    below the target in each of the months 0 to 599. *)
Theorem calculateYearsToTarget_null (params : TargetParams) :
  let start := dflt (t_currentAmount params) 0 in
  let c := dflt (t_monthlyContribution params) 0 in
  let r := dflt (t_expectedReturn params) 12 / 100 / 12 in
  let t := dflt (t_targetAmount params) 1000000 in
  calculateYearsToTarget params = None
  <-> (forall j, (j < 600)%nat -> valueAfter r c j start < t).
Proof.
  cbv zeta. unfold calculateYearsToTarget. cbv zeta.
  set (start := dflt (t_currentAmount params) 0).
  set (c := dflt (t_monthlyContribution params) 0).
  set (r := dflt (t_expectedReturn params) 12 / 100 / 12).
  set (t := dflt (t_targetAmount params) 1000000).
  pose proof (accumulate_first r c t start 600 0 start
                ltac:(reflexivity) ltac:(intros; lia) ltac:(lia) ltac:(lia))
    as (Hb & Hm & Ht).
  destruct (accumulate r c t 600 0 start) as [m' v']. cbn [fst] in *.
  destruct (Nat.ltb_spec m' 600) as [Hlt | Hge]; split.
  - discriminate.
  - intro H. exfalso. specialize (H m' Hlt). specialize (Ht Hlt). lra.
  - intros _ j Hj. apply Hb. lia.
  - reflexivity.
Qed.


Lemma calculateYearsToTarget_null_witness :
  let p :=
    {| t_currentAmount := Some 0; t_monthlyContribution := Some 1;
       t_expectedReturn := Some 0; t_targetAmount := Some 600 |} in
  calculateYearsToTarget p = None
  /\ valueAfter (0 / 100 / 12) 1 599 0 < 600.
Proof.
  cbv zeta.
  assert (E : calculateYearsToTarget
                {| t_currentAmount := Some 0; t_monthlyContribution := Some 1;
                   t_expectedReturn := Some 0; t_targetAmount := Some 600 |}
              = None) by (vm_compute; reflexivity).
  split; [exact E |].
  apply (proj1 (calculateYearsToTarget_null _) E 599%nat). lia.
Defined.

Lemma accumulate_from (r c t : Q) (fuel months : nat) (value : Q) :
  (months <= fst (accumulate r c t fuel months value))%nat.
Proof.
  revert months value. induction fuel as [| fuel IH]; intros months value;
    cbn [accumulate].
  - cbn [fst]. lia.
  - destruct (Qlt_bool value t && (months <? 600)%nat); cbn [fst]; [| lia].
    match goal with
    | |- (_ <= fst (accumulate _ _ _ _ _ ?v))%nat =>
        specialize (IH (S months) v)
    end. lia.
Qed.

(** Starting from more never takes longer, when the monthly growth factor
    is not negative. *)
Lemma accumulate_mono (r c t : Q) (fuel : nat) :
  0 <= 1 + r ->
  forall months v1 v2, v1 <= v2 ->
  (fst (accumulate r c t fuel months v2)
   <= fst (accumulate r c t fuel months v1))%nat.
Proof.
  intro Hr. induction fuel as [| fuel IH]; intros months v1 v2 Hv;
    cbn [accumulate].
  - cbn [fst]. lia.
  - destruct (Qlt_bool v2 t) eqn:E2; cbn [andb].
    + assert (E1 : Qlt_bool v1 t = true)
        by (qtests; apply Qlt_bool_true; lra).
      rewrite E1. cbn [andb].
      destruct (months <? 600)%nat; [| cbn [fst]; lia].
      apply IH. rewrite !Qred_correct.
      pose proof (Qmult_le_compat_r _ _ _ Hv Hr). lra.
    + cbn [fst].
      destruct (Qlt_bool v1 t && (months <? 600)%nat); cbn [fst]; [| lia].
      match goal with
      | |- (_ <= fst (accumulate _ _ _ _ _ ?v))%nat =>
          pose proof (accumulate_from r c t fuel (S months) v)
      end. lia.
Qed.

(** X13.  A windfall that is not negative never lengthens the way to the target:
    the months saved reported by [calculateWindfallImpact] are not
    negative (for an expected return of at least -1200). *)
Theorem calculateWindfallImpact_never_negative
        (gen : nat -> Q -> Q -> Q) (params : WindfallParams)
        (r : WindfallImpact) :
  0 <= dflt (windfall params) 0 ->
  -1200 <= dflt (w_expectedReturn params) 12 ->
  calculateWindfallImpact gen params = Some r ->
  (0 <= monthsSaved r)%Z.
Proof.
  intros Hw He. unfold calculateWindfallImpact. cbv zeta.
  unfold calculateYearsToTarget. cbv zeta. cbn [dflt t_currentAmount
    t_monthlyContribution t_expectedReturn t_targetAmount].
  set (w := dflt (windfall params) 0) in *.
  set (e := dflt (w_expectedReturn params) 12) in *.
  set (c := dflt (currentMonthlyContribution params) 0).
  set (t := dflt (w_targetAmount params) 1000000).
  set (p := dflt (currentProgress params) 0).
  assert (Hr : 0 <= 1 + e / 100 / 12) by qlra.
  pose proof (accumulate_mono (e / 100 / 12) c t 600 Hr 0 p (p + w)
                ltac:(lra)) as Hm.
  destruct (accumulate (e / 100 / 12) c t 600 0 p) as [m1 v1].
  destruct (accumulate (e / 100 / 12) c t 600 0 (p + w)) as [m2 v2].
  cbn [fst] in Hm.
  destruct (m1 <? 600)%nat; destruct (m2 <? 600)%nat; cbn [falsy orb];
    try discriminate.
  - destruct (_ || _); [discriminate |].
    intro H. injection H as <-. cbn [monthsSaved]. lia.
  - destruct m1; discriminate.
Qed.

Lemma calculateWindfallImpact_never_negative_witness :
  let params :=
    {| windfall := Some 300; currentMonthlyContribution := Some 100;
       w_expectedReturn := Some 0; w_targetAmount := Some 1000;
       currentProgress := Some 0 |} in
  0 <= dflt (windfall params) 0
  /\ -1200 <= dflt (w_expectedReturn params) 12
  /\ exists r,
      calculateWindfallImpact (fun _ _ _ => 0) params = Some r
      /\ monthsSaved r = 3%Z /\ (0 <= monthsSaved r)%Z.
Proof.
  cbv zeta. split; [simpl; lra |]. split; [simpl; lra |].
  destruct (calculateWindfallImpact (fun _ _ _ => 0)
              {| windfall := Some 300;
                 currentMonthlyContribution := Some 100;
                 w_expectedReturn := Some 0; w_targetAmount := Some 1000;
                 currentProgress := Some 0 |}) as [r |] eqn:E.
  - exists r. split; [reflexivity |]. split.
    + vm_compute in E. injection E as <-. reflexivity.
    + apply (calculateWindfallImpact_never_negative _ _ r) in E;
        [exact E | simpl; lra | simpl; lra].
  - vm_compute in E. discriminate E.
Defined.

(** X14.  A windfall large enough to meet the target at once gives no impact
    report: the month count 0 is read as "no result" and [null] is
    returned. *)
Theorem calculateWindfallImpact_null_when_met
        (gen : nat -> Q -> Q -> Q) (params : WindfallParams) :
  dflt (w_targetAmount params) 1000000
  <= dflt (currentProgress params) 0 + dflt (windfall params) 0 ->
  calculateWindfallImpact gen params = None.
Proof.
  intro H. unfold calculateWindfallImpact. cbv zeta.
  set (p1 := {| t_currentAmount := Some (dflt (currentProgress params) 0);
                t_monthlyContribution := _; t_expectedReturn := _;
                t_targetAmount := _ |}).
  set (p2 := {| t_currentAmount :=
                  Some (dflt (currentProgress params) 0
                        + dflt (windfall params) 0);
                t_monthlyContribution := _; t_expectedReturn := _;
                t_targetAmount := _ |}).
  assert (E2 : calculateYearsToTarget p2 = Some 0%nat).
  { unfold calculateYearsToTarget. cbv zeta. subst p2.
    cbn [dflt t_currentAmount t_monthlyContribution t_expectedReturn
         t_targetAmount accumulate].
    match goal with
    | |- context [Qlt_bool ?a ?b] =>
        assert (E : Qlt_bool a b = false) by (apply Qlt_bool_false; exact H)
    end.
    rewrite E. reflexivity. }
  rewrite E2. cbn [falsy]. rewrite orb_true_r. reflexivity.
Qed.

Lemma calculateWindfallImpact_null_when_met_witness :
  let params :=
    {| windfall := Some 500; currentMonthlyContribution := Some 100;
       w_expectedReturn := None; w_targetAmount := Some 1000;
       currentProgress := Some 600 |} in
  dflt (w_targetAmount params) 1000000
  <= dflt (currentProgress params) 0 + dflt (windfall params) 0
  /\ calculateWindfallImpact (fun _ _ _ => 0) params = None.
Proof.
  cbv zeta. split; [simpl; lra |].
  apply (calculateWindfallImpact_null_when_met (fun _ _ _ => 0)
           {| windfall := Some 500; currentMonthlyContribution := Some 100;
              w_expectedReturn := None; w_targetAmount := Some 1000;
              currentProgress := Some 600 |}).
  simpl. lra.
Defined.

(** X15.  [calculateRequiredSIP] never returns a negative amount. *)
Theorem calculateRequiredSIP_never_negative `{MathPow} (params : SIPParams) :
  match calculateRequiredSIP params with
  | Num q => 0 <= q
  | NegInf => False
  | PosInf | NaN => True
  end.
Proof.
  unfold calculateRequiredSIP. cbv zeta.
  destruct (Qle_bool _ 0); [lra |].
  destruct (div _ _) as [q | | |]; cbn [round_num max0]; try exact I.
  - apply Q.le_max_l.
  - lra.
Qed.


Lemma sort_sorted (l : list Q) :
  StronglySorted Qle (sort (fun a b => a - b) l).
Proof.
  apply sort_sorted_by.
  - intros x y E. qtests. lra.
  - intros x y E. qtests. lra.
  - intros x y z H1 H2. lra.
Qed.

Lemma sorted_nth (l : list Q) :
  StronglySorted Qle l ->
  forall i j a b, (i <= j)%nat ->
  nth_error l i = Some a -> nth_error l j = Some b -> a <= b.
Proof.
  intro H. induction H as [| x l Hl IH Hx]; intros i j a b Hij Ha Hb.
  - destruct i; discriminate.
  - destruct i as [| i]; destruct j as [| j]; simpl in Ha, Hb.
    + injection Ha as <-. injection Hb as <-. lra.
    + injection Ha as <-. apply nth_error_In in Hb.
      rewrite Forall_forall in Hx. apply Hx. exact Hb.
    + lia.
    + apply (IH i j); [lia | assumption | assumption].
Qed.

Lemma trials_length (gen : nat -> Q -> Q -> Q) (ar av mc c : Q)
      (n months draws : nat) (results : list Q) :
  List.length (trials gen ar av mc n months c draws results)
  = (List.length results + n)%nat.
Proof.
  revert draws results. induction n as [| n IH]; intros draws results;
    cbn [trials].
  - lia.
  - destruct (walk gen ar av mc months draws c) as [p d].
    rewrite IH. rewrite length_app. simpl. lia.
Qed.

Lemma round_at_in_range (results : list Q) (i : Z) :
  (0 <= i < Z.of_nat (List.length results))%Z ->
  exists v, nth_error results (Z.to_nat i) = Some v
            /\ round_at results i = Num (inject_Z (round v)).
Proof.
  intros [H0 H1]. unfold round_at, at_index.
  destruct (Z.ltb_spec i 0); [lia |].
  destruct (nth_error results (Z.to_nat i)) as [v |] eqn:E.
  - exists v. split; reflexivity.
  - apply nth_error_None in E. lia.
Qed.

Lemma rank_mono (n : nat) (p q : Q) :
  0 <= p -> p <= q ->
  (floor (inject_Z (Z.of_nat n) * p) <= floor (inject_Z (Z.of_nat n) * q))%Z.
Proof.
  intros H0 Hpq. unfold floor. apply Qfloor_resp_le.
  assert (Hn : 0 <= inject_Z (Z.of_nat n)).
  { change 0 with (inject_Z 0). rewrite <- Zle_Qle. lia. }
  rewrite (Qmult_comm _ p), (Qmult_comm _ q).
  apply Qmult_le_compat_r; assumption.
Qed.

(** X16.  With at least one iteration and whatever the random draws, the five
    percentiles, the minimum and the maximum returned by [simulateGoal] are
    whole numbers in ascending order. *)
Theorem simulateGoal_percentiles_ordered
        (gen : nat -> Q -> Q -> Q) (params : GoalParams) :
  (1 <= dflt (iterations params) 1000)%nat ->
  let r := simulateGoal gen params in
  exists lo a10 a25 a50 a75 a90 hi : Z,
    min r = Num (inject_Z lo)
    /\ p10 (percentiles r) = Num (inject_Z a10)
    /\ p25 (percentiles r) = Num (inject_Z a25)
    /\ p50 (percentiles r) = Num (inject_Z a50)
    /\ p75 (percentiles r) = Num (inject_Z a75)
    /\ p90 (percentiles r) = Num (inject_Z a90)
    /\ max r = Num (inject_Z hi)
    /\ (lo <= a10 <= a25)%Z /\ (a25 <= a50 <= a75)%Z /\ (a75 <= a90 <= hi)%Z.
Proof.
  intro Hn. cbv zeta. unfold simulateGoal. cbv zeta.
  cbn [percentiles p10 p25 p50 p75 p90 min max].
  set (n := dflt (iterations params) 1000%nat) in *.
  set (raw := trials _ _ _ _ _ _ _ _ _).
  set (results := sort (fun a b => a - b) raw).
  assert (Hlen : List.length results = n).
  { subst results. rewrite (Permutation_length (sort_perm _ raw)).
    subst raw. rewrite trials_length. simpl. lia. }
  pose proof (sort_sorted raw) as Hs. fold results in Hs.
  pose proof (rank_in_range n (1 # 10) Hn ltac:(lra) ltac:(lra)) as R10.
  pose proof (rank_in_range n (25 # 100) Hn ltac:(lra) ltac:(lra)) as R25.
  pose proof (rank_in_range n (5 # 10) Hn ltac:(lra) ltac:(lra)) as R50.
  pose proof (rank_in_range n (75 # 100) Hn ltac:(lra) ltac:(lra)) as R75.
  pose proof (rank_in_range n (9 # 10) Hn ltac:(lra) ltac:(lra)) as R90.
  pose proof (rank_mono n (1 # 10) (25 # 100) ltac:(lra) ltac:(lra)) as M1.
  pose proof (rank_mono n (25 # 100) (5 # 10) ltac:(lra) ltac:(lra)) as M2.
  pose proof (rank_mono n (5 # 10) (75 # 100) ltac:(lra) ltac:(lra)) as M3.
  pose proof (rank_mono n (75 # 100) (9 # 10) ltac:(lra) ltac:(lra)) as M4.
  set (i10 := floor (inject_Z (Z.of_nat n) * (1 # 10))) in *.
  set (i25 := floor (inject_Z (Z.of_nat n) * (25 # 100))) in *.
  set (i50 := floor (inject_Z (Z.of_nat n) * (5 # 10))) in *.
  set (i75 := floor (inject_Z (Z.of_nat n) * (75 # 100))) in *.
  set (i90 := floor (inject_Z (Z.of_nat n) * (9 # 10))) in *.
  destruct (round_at_in_range results 0 ltac:(lia)) as (v0 & N0 & ->).
  destruct (round_at_in_range results i10 ltac:(lia)) as (v10 & N10 & ->).
  destruct (round_at_in_range results i25 ltac:(lia)) as (v25 & N25 & ->).
  destruct (round_at_in_range results i50 ltac:(lia)) as (v50 & N50 & ->).
  destruct (round_at_in_range results i75 ltac:(lia)) as (v75 & N75 & ->).
  destruct (round_at_in_range results i90 ltac:(lia)) as (v90 & N90 & ->).
  destruct (round_at_in_range results (Z.of_nat n - 1) ltac:(lia))
    as (v100 & N100 & ->).
  exists (round v0), (round v10), (round v25), (round v50), (round v75),
    (round v90), (round v100).
  repeat split; try reflexivity;
    match goal with
    | |- (round ?a <= round ?b)%Z =>
        apply round_le;
        match goal with
        | Ha : nth_error results ?i = Some a,
          Hb : nth_error results ?j = Some b |- _ =>
            apply (sorted_nth results Hs i j a b); [lia | exact Ha | exact Hb]
        end
    end.
Qed.

Lemma simulateGoal_percentiles_ordered_witness :
  let params :=
    {| currentAmount := Some 1000; monthlyContribution := Some 100;
       expectedReturn := Some 12; volatility := Some 15;
       years := Some (1 # 6); targetAmount := Some 1200;
       iterations := Some 4%nat |} in
  (1 <= dflt (iterations params) 1000)%nat
  /\ exists lo hi : Z,
      min (simulateGoal (fun k _ _ => inject_Z (Z.of_nat k) / 100) params)
      = Num (inject_Z lo)
      /\ max (simulateGoal (fun k _ _ => inject_Z (Z.of_nat k) / 100) params)
         = Num (inject_Z hi)
      /\ (lo <= hi)%Z.
Proof.
  cbv zeta. split; [simpl; lia |].
  destruct (simulateGoal_percentiles_ordered
              (fun k _ _ => inject_Z (Z.of_nat k) / 100)
              {| currentAmount := Some 1000; monthlyContribution := Some 100;
                 expectedReturn := Some 12; volatility := Some 15;
                 years := Some (1 # 6); targetAmount := Some 1200;
                 iterations := Some 4%nat |} ltac:(simpl; lia))
    as (lo & a10 & a25 & a50 & a75 & a90 & hi & Hlo & _ & _ & _ & _ & _
        & Hhi & H1 & H2 & H3).
  exists lo, hi. split; [exact Hlo |]. split; [exact Hhi | lia].
Defined.

(** X17.  With at least one iteration the probability returned is an ordinary
    number between 0 and 1. *)
Theorem simulateGoal_probability_range
        (gen : nat -> Q -> Q -> Q) (params : GoalParams) :
  (1 <= dflt (iterations params) 1000)%nat ->
  exists q, probability (simulateGoal gen params) = Num q /\ 0 <= q <= 1.
Proof.
  intro Hn. unfold simulateGoal. cbv zeta. cbn [probability].
  set (n := dflt (iterations params) 1000%nat) in *.
  set (raw := trials _ _ _ _ _ _ _ _ _).
  set (results := sort (fun a b => a - b) raw).
  assert (Hlen : List.length results = n).
  { subst results. rewrite (Permutation_length (sort_perm _ raw)).
    subst raw. rewrite trials_length. simpl. lia. }
  set (k := List.length (filter _ results)).
  assert (Hk : (k <= n)%nat).
  { subst k. rewrite <- Hlen. apply filter_length_le. }
  assert (Hq : 1 <= inject_Z (Z.of_nat n)).
  { change 1 with (inject_Z 1). rewrite <- Zle_Qle. lia. }
  assert (Hk0 : 0 <= inject_Z (Z.of_nat k)).
  { change 0 with (inject_Z 0). rewrite <- Zle_Qle. lia. }
  assert (Hkn : inject_Z (Z.of_nat k) <= inject_Z (Z.of_nat n)).
  { rewrite <- Zle_Qle. lia. }
  set (qn := inject_Z (Z.of_nat n)) in *.
  set (qk := inject_Z (Z.of_nat k)) in *. clearbody qn qk.
  unfold div.
  destruct (Qeq_bool qn 0) eqn:E; qtests; [lra |].
  cbn [scale round_num].
  eexists. split; [reflexivity |].
  assert (Hd : 0 <= qk / qn /\ qk / qn <= 1).
  { split.
    - apply Qle_shift_div_l; lra.
    - apply Qle_shift_div_r; lra. }
  destruct Hd as [Hd0 Hd1].
  pose proof (round_nonneg (qk / qn * 100) ltac:(lra)) as R0.
  pose proof (round_le (qk / qn * 100) 100 ltac:(lra)) as R1.
  change (round 100) with 100%Z in R1.
  rewrite Zle_Qle in R0, R1. change (inject_Z 0) with 0 in R0.
  change (inject_Z 100) with 100 in R1.
  set (z := inject_Z (round (qk / qn * 100))) in *. clearbody z.
  split; qlra.
Qed.

Lemma simulateGoal_probability_range_witness :
  let params :=
    {| currentAmount := Some 1000; monthlyContribution := Some 100;
       expectedReturn := Some 12; volatility := Some 15;
       years := Some (1 # 6); targetAmount := Some 1200;
       iterations := Some 4%nat |} in
  (1 <= dflt (iterations params) 1000)%nat
  /\ exists q,
      probability
        (simulateGoal (fun k _ _ => inject_Z (Z.of_nat k) / 100) params)
      = Num q /\ 0 <= q <= 1.
Proof.
  cbv zeta. split; [simpl; lia |].
  apply (simulateGoal_probability_range
           (fun k _ _ => inject_Z (Z.of_nat k) / 100)
           {| currentAmount := Some 1000; monthlyContribution := Some 100;
              expectedReturn := Some 12; volatility := Some 15;
              years := Some (1 # 6); targetAmount := Some 1200;
              iterations := Some 4%nat |}).
  simpl. lia.
Defined.

(** X18.  With no iteration at all nothing is rejected: every field of the result
    is [NaN]. *)
Theorem simulateGoal_no_iterations
        (gen : nat -> Q -> Q -> Q) (params : GoalParams) :
  iterations params = Some 0%nat ->
  simulateGoal gen params
  = {| probability := NaN;
       percentiles :=
         {| p10 := NaN; p25 := NaN; p50 := NaN; p75 := NaN; p90 := NaN |};
       mean := NaN; min := NaN; max := NaN |}.
Proof.
  intro H. unfold simulateGoal. cbv zeta. rewrite H. reflexivity.
Qed.

Lemma simulateGoal_no_iterations_witness :
  let params :=
    {| currentAmount := Some 1000; monthlyContribution := None;
       expectedReturn := None; volatility := None; years := None;
       targetAmount := Some 2000; iterations := Some 0%nat |} in
  iterations params = Some 0%nat
  /\ probability (simulateGoal (fun _ _ _ => 0) params) = NaN.
Proof.
  cbv zeta. split; [reflexivity |].
  rewrite (simulateGoal_no_iterations (fun _ _ _ => 0)
             {| currentAmount := Some 1000; monthlyContribution := None;
                expectedReturn := None; volatility := None; years := None;
                targetAmount := Some 2000; iterations := Some 0%nat |});
    reflexivity.
Defined.

End MonteCarloExtras.

(** ** Inflation engine *)

Section InflationExtras.
Import JS Inflation.

(** X19.  Unless the inflation rate is -100, [realReturn] and
    [requiredNominalReturn] undo each other. *)
Theorem realReturn_requiredNominalReturn (x : Q) (inflationRate : option Q) :
  ~ dflt inflationRate defaultRate == -100 ->
  is_num (realReturn (requiredNominalReturn x inflationRate) inflationRate) x
  /\ exists q, realReturn x inflationRate = Num q
               /\ requiredNominalReturn q inflationRate == x.
Proof.
  intro Hi. unfold realReturn, requiredNominalReturn. cbv zeta.
  set (i := dflt inflationRate defaultRate) in *.
  assert (Hd : ~ 1 + i / 100 == 0).
  { intro H. apply Hi. qconst. lra. }
  unfold div.
  destruct (Qeq_bool (1 + i / 100) 0) eqn:E; qtests; [contradiction |].
  split.
  - cbn [is_num]. field. intro Hz. apply Hi. lra.
  - eexists. split; [reflexivity |]. field. intro Hz. apply Hi. lra.
Qed.

Lemma realReturn_requiredNominalReturn_witness :
  ~ dflt (Some 5) defaultRate == -100
  /\ requiredNominalReturn 2 (Some 5) == 71 # 10
  /\ is_num (realReturn (requiredNominalReturn 2 (Some 5)) (Some 5)) 2.
Proof.
  assert (H : ~ dflt (Some 5) defaultRate == -100).
  { simpl. intro E. discriminate E. }
  split; [exact H |]. split; [reflexivity |].
  apply (realReturn_requiredNominalReturn 2 (Some 5) H).
Defined.

(** X20.  When the return after retirement does not exceed the inflation after
    retirement (a real return of zero or less), the corpus is the plain
    product of the monthly expenses at retirement and the number of months
    of retirement: the annuity formula, which would divide by the monthly
    real return, is not used. *)
Theorem retirementCorpus_degenerate_rate `{MathPow}
        (params : RetirementParams) :
  -100 < dflt (postRetirementInflation params) 5 ->
  dflt (postRetirementReturn params) 6
  <= dflt (postRetirementInflation params) 5 ->
  corpusRequired (retirementCorpus params)
  = Num (inject_Z
           (round
              (futureValue (dflt (monthlyExpenses params) 50000)
                           (dflt (retirementAge params) 60
                            - dflt (currentAge params) 30)
                           (Some (dflt (preRetirementInflation params) 6))
               * ((dflt (lifeExpectancy params) 85
                   - dflt (retirementAge params) 60) * 12)))).
Proof.
  intros Hi Hr. unfold retirementCorpus. cbv zeta. cbn [corpusRequired].
  unfold realReturn. cbv zeta. cbn [dflt].
  set (i := dflt (postRetirementInflation params) 5) in *.
  set (n := dflt (postRetirementReturn params) 6) in *.
  assert (Hd : 0 < 1 + i / 100) by qlra.
  unfold div.
  destruct (Qeq_bool (1 + i / 100) 0) eqn:E; qtests; [lra |].
  assert (Hq : (1 + n / 100) / (1 + i / 100) <= 1).
  { apply Qle_shift_div_r; [exact Hd |]. qlra. }
  set (q := (1 + n / 100) / (1 + i / 100)) in *. clearbody q.
  assert (El : Qle_bool ((q - 1) * 100 / 100 / 12) 0 = true).
  { apply Qle_bool_iff. qlra. }
  rewrite El. reflexivity.
Qed.

Lemma retirementCorpus_degenerate_rate_witness :
  let params :=
    {| monthlyExpenses := Some 1000; currentAge := Some 58;
       retirementAge := Some 60; lifeExpectancy := Some 70;
       preRetirementInflation := Some 10;
       postRetirementInflation := Some 5;
       postRetirementReturn := Some 5 |} in
  -100 < dflt (postRetirementInflation params) 5
  /\ dflt (postRetirementReturn params) 6
     <= dflt (postRetirementInflation params) 5
  /\ corpusRequired (retirementCorpus (H := whole_pow) params)
     = Num (inject_Z 145200).
Proof.
  cbv zeta. split; [simpl; lra |]. split; [simpl; lra |].
  rewrite (retirementCorpus_degenerate_rate (H := whole_pow)
             {| monthlyExpenses := Some 1000; currentAge := Some 58;
                retirementAge := Some 60; lifeExpectancy := Some 70;
                preRetirementInflation := Some 10;
                postRetirementInflation := Some 5;
                postRetirementReturn := Some 5 |});
    [reflexivity | simpl; lra | simpl; lra].
Defined.
End InflationExtras.

(** ** Debt payoff engine *)

Section DebtExtras.
Import JS DebtSnowball.

Lemma monthsLoop_le_600 (mi e : Q) (fuel months : nat) (remaining : Q) :
  (months <= 600)%nat ->
  (monthsLoop mi e fuel months remaining <= 600)%nat.
Proof.
  revert months remaining.
  induction fuel as [| fuel IH]; intros months remaining H;
    cbn [monthsLoop].
  - exact H.
  - destruct (Qlt_bool 0 remaining && (months <? 600)%nat) eqn:E;
      [| exact H].
    apply andb_true_iff in E. destruct E as [_ E].
    apply Nat.ltb_lt in E. apply IH. lia.
Qed.

(** X21.  [analyzeDebts] loses no debt and adds none, lists the debts by
    priority, highest first, and never counts more than 600 months
    remaining; [hasDebt] tells whether there is any liability. *)
Theorem analyzeDebts_sorted (liabilities : list Liability) :
  let analysis := analyzeDebts liabilities in
  Permutation (debts analysis) (map analyzeDebt liabilities)
  /\ StronglySorted (fun a b => priority b <= priority a) (debts analysis)
  /\ Forall (fun d => (monthsRemaining d <= 600)%nat) (debts analysis)
  /\ hasDebt analysis = nonempty liabilities.
Proof.
  cbv zeta. split; [apply analyzeDebts_perm |].
  split; [| split].
  - unfold analyzeDebts. destruct liabilities as [| d l]; cbn [debts].
    + constructor.
    + apply sort_sorted_by.
      * intros x y E. qtests. lra.
      * intros x y E. qtests. lra.
      * intros x y z H1 H2. lra.
  - eapply Permutation_Forall;
      [apply Permutation_sym; apply analyzeDebts_perm |].
    rewrite Forall_map. apply Forall_forall. intros d _.
    unfold analyzeDebt. cbn [monthsRemaining].
    apply monthsLoop_le_600. lia.
  - destruct liabilities; reflexivity.
Qed.

(** X22.  The simulation order: by interest rate, highest first, for
    ['avalanche'], and by balance, smallest first, for any other method;
    in both cases every analysed debt appears once. *)
Theorem payoffOrder_sorted (method : string) (ds : list Analyzed) :
  Permutation (payoffOrder method ds) (map simStart ds)
  /\ (if String.eqb method "avalanche"
      then StronglySorted (fun a b => s_interestRate b <= s_interestRate a)
                          (payoffOrder method ds)
      else StronglySorted (fun a b => balance a <= balance b)
                          (payoffOrder method ds)).
Proof.
  split; [apply payoffOrder_perm |].
  unfold payoffOrder. destruct (String.eqb method "avalanche").
  - apply sort_sorted_by.
    + intros x y E. qtests. lra.
    + intros x y E. qtests. lra.
    + intros x y z H1 H2. lra.
  - apply sort_sorted_by.
    + intros x y E. qtests. lra.
    + intros x y E. qtests. lra.
    + intros x y z H1 H2. lra.
Qed.

(** X23.  The priority score lies between -10 and 170, and for the same kind of
    loan and the same principal a higher interest rate never scores
    lower. *)
Theorem calculatePriority_rate_monotone (d d' : Liability) :
  loanType d = loanType d' -> principal d = principal d' ->
  interestRate d <= interestRate d' ->
  calculatePriority d <= calculatePriority d'
  /\ -10 <= calculatePriority d /\ calculatePriority d <= 170.
Proof.
  intros Ht Hp Hr. unfold calculatePriority. cbv zeta.
  rewrite <- Ht, <- Hp.
  set (cc := String.eqb (loanType d) "credit-card").
  set (pl := String.eqb (loanType d) "personal").
  set (hm := String.eqb (loanType d) "home").
  set (ed := String.eqb (loanType d) "education").
  assert (Hx : cc = true -> hm = false /\ ed = false).
  { subst cc hm ed. intro E. apply String.eqb_eq in E. rewrite E.
    split; reflexivity. }
  assert (Hy : pl = true -> hm = false /\ ed = false).
  { subst pl hm ed. intro E. apply String.eqb_eq in E. rewrite E.
    split; reflexivity. }
  destruct cc; destruct pl; destruct hm; destruct ed;
    try (destruct (Hx eq_refl); discriminate);
    try (destruct (Hy eq_refl); discriminate);
    cbn [orb];
    repeat match goal with
      | |- context [if Qlt_bool ?a ?b then _ else _] =>
          destruct (Qlt_bool a b) eqn:?
      end; qtests; repeat split; lra.
Qed.


Lemma calculatePriority_rate_monotone_witness :
  let d := {| name := "card"; principal := 40000; interestRate := 13;
              emi := 2000; loanType := "credit-card" |} in
  let d' := {| name := "card"; principal := 40000; interestRate := 36;
               emi := 2000; loanType := "credit-card" |} in
  loanType d = loanType d' /\ principal d = principal d'
  /\ interestRate d <= interestRate d'
  /\ calculatePriority d == 130 /\ calculatePriority d' == 170
  /\ calculatePriority d <= calculatePriority d'.
Proof.
  cbv zeta. split; [reflexivity |]. split; [reflexivity |].
  split; [simpl; lra |]. split; [reflexivity |]. split; [reflexivity |].
  apply (calculatePriority_rate_monotone
           {| name := "card"; principal := 40000; interestRate := 13;
              emi := 2000; loanType := "credit-card" |}
           {| name := "card"; principal := 40000; interestRate := 36;
              emi := 2000; loanType := "credit-card" |});
    [reflexivity | reflexivity | simpl; lra].
Defined.

(** X24.  [createPayoffPlan] returns [null] exactly when there is no liability. *)
Theorem createPayoffPlan_null_iff_no_debt
        (liabilities : list Liability) (extraPayment : option Q)
        (method : option string) :
  createPayoffPlan liabilities extraPayment method = None
  <-> liabilities = [].
Proof.
  unfold createPayoffPlan. cbv zeta.
  destruct liabilities as [| d l].
  - split; reflexivity.
  - cbn [analyzeDebts hasDebt negb].
    destruct (payoffRun _ _ _) as [[month ds] plan].
    split; discriminate.
Qed.

Lemma createPayoffPlan_null_iff_no_debt_witness :
  createPayoffPlan [] (Some 500) None = None
  /\ createPayoffPlan [slow_debt] (Some 500) None <> None.
Proof.
  split.
  - apply (proj2 (createPayoffPlan_null_iff_no_debt [] (Some 500) None)).
    reflexivity.
  - intro E.
    apply (proj1 (createPayoffPlan_null_iff_no_debt _ _ _)) in E.
    discriminate E.
Defined.

Lemma monthPass_rows_nonneg (extra : Q) (todo : list SimDebt) :
  forall done freed,
    Forall (fun r => (0 <= row_balance r)%Z)
           (snd (monthPass extra done todo freed)).
Proof.
  induction todo as [| o todo IH]; intros done freed; cbn [monthPass].
  - constructor.
  - destruct (Qle_bool (balance o) 0).
    + specialize (IH (done ++ [o]) freed).
      destruct (monthPass extra (done ++ [o]) todo freed) as [rest rows].
      exact IH.
    + cbv zeta.
      match goal with
      | |- context [monthPass extra ?dn todo ?fr] =>
          specialize (IH dn fr); destruct (monthPass extra dn todo fr)
            as [rest rows]
      end.
      cbn [snd] in *. constructor; [| exact IH].
      cbn [row_balance balance]. apply round_nonneg.
      rewrite Qred_correct. apply Q.le_max_l.
Qed.

Lemma payoffLoop_shape (extra : Q) (fuel : nat) :
  forall month ds plan,
    map DebtSnowball.month plan = seq 1 month -> (month <= 600)%nat ->
    Forall (fun mp => Forall (fun r => (0 <= row_balance r)%Z) (payments mp))
           plan ->
    let '(month', _, plan') := payoffLoop extra fuel month ds plan in
    map DebtSnowball.month plan' = seq 1 month' /\ (month' <= 600)%nat
    /\ Forall (fun mp =>
                 Forall (fun r => (0 <= row_balance r)%Z) (payments mp))
              plan'.
Proof.
  induction fuel as [| fuel IH]; intros month ds plan Hs Hm Hr;
    cbn [payoffLoop].
  - auto.
  - destruct (existsb active ds && (month <? 600)%nat) eqn:E; [| auto].
    apply andb_true_iff in E. destruct E as [_ E]. apply Nat.ltb_lt in E.
    pose proof (monthPass_rows_nonneg extra ds [] 0) as Hrows.
    destruct (monthPass extra [] ds 0) as [ds' rows]. cbn [snd] in Hrows.
    apply IH.
    + rewrite map_app. rewrite Hs. cbn [map DebtSnowball.month].
      rewrite seq_S. reflexivity.
    + lia.
    + apply Forall_app. split; [exact Hr |].
      constructor; [exact Hrows | constructor].
Qed.

(** X25.  The plan has one entry per simulated month, numbered from 1, never more
    than 600, and no row of it shows a negative balance. *)
Theorem createPayoffPlan_shape
        (liabilities : list Liability) (extraPayment : option Q)
        (method : option string) (p : PayoffPlan) :
  createPayoffPlan liabilities extraPayment method = Some p ->
  map DebtSnowball.month (plan p) = seq 1 (totalMonths (summary p))
  /\ (totalMonths (summary p) <= 600)%nat
  /\ Forall (fun mp => Forall (fun r => (0 <= row_balance r)%Z) (payments mp))
            (plan p).
Proof.
  unfold createPayoffPlan. cbv zeta.
  destruct (negb (hasDebt (analyzeDebts liabilities))); [discriminate |].
  unfold payoffRun.
  pose proof (payoffLoop_shape (dflt extraPayment 0) 600 0
                (payoffOrder (dflt method "avalanche"%string)
                             (debts (analyzeDebts liabilities))) []
                eq_refl ltac:(lia) ltac:(constructor)) as H.
  destruct (payoffLoop _ _ _ _ _) as [[month ds] pl].
  intro E. injection E as <-. cbn [plan summary totalMonths months].
  exact H.
Qed.

Lemma createPayoffPlan_shape_witness :
  exists p,
    createPayoffPlan [small_debt; large_debt] (Some 0)
                     (Some "snowball"%string) = Some p
    /\ totalMonths (summary p) = 19%nat
    /\ map DebtSnowball.month (plan p) = seq 1 (totalMonths (summary p)).
Proof.
  destruct (createPayoffPlan [small_debt; large_debt] (Some 0)
                             (Some "snowball"%string)) as [p |] eqn:E.
  - exists p. split; [reflexivity |]. split.
    + vm_compute in E. injection E as <-. reflexivity.
    + apply (createPayoffPlan_shape _ _ _ p E).
  - vm_compute in E. discriminate E.
Defined.

Lemma minLoop_le_600 (fuel month : nat) (ms : list MinDebt) :
  (month <= 600)%nat -> (fst (minLoop fuel month ms) <= 600)%nat.
Proof.
  revert month ms. induction fuel as [| fuel IH]; intros month ms H;
    cbn [minLoop].
  - exact H.
  - destruct (existsb _ ms && (month <? 600)%nat) eqn:E; [| exact H].
    apply andb_true_iff in E. destruct E as [_ E]. apply Nat.ltb_lt in E.
    apply IH. lia.
Qed.

(** X26.  The minimum-payments simulation does not depend on the order in which
    the liabilities are listed, and never counts more than 600 months. *)
Theorem simulateMinimumPayments_order (l l' : list Liability) :
  Permutation l l' ->
  months (simulateMinimumPayments l) = months (simulateMinimumPayments l')
  /\ totalPaid (simulateMinimumPayments l)
     == totalPaid (simulateMinimumPayments l')
  /\ (months (simulateMinimumPayments l) <= 600)%nat.
Proof.
  intro H.
  destruct (simulateMinimumPayments_run l) as [-> ->].
  destruct (simulateMinimumPayments_run l') as [-> ->].
  unfold minimumPaymentsRun.
  destruct (minLoop_perm 600 0 (map minStart l) (map minStart l')
              (Permutation_map _ H)) as [Ek Ep].
  split; [exact Ek |]. split.
  - apply sum_perm. exact Ep.
  - apply minLoop_le_600. lia.
Qed.

Lemma simulateMinimumPayments_order_witness :
  Permutation [small_debt; large_debt] [large_debt; small_debt]
  /\ months (simulateMinimumPayments [small_debt; large_debt]) = 20%nat
  /\ months (simulateMinimumPayments [small_debt; large_debt])
     = months (simulateMinimumPayments [large_debt; small_debt]).
Proof.
  assert (H : Permutation [small_debt; large_debt] [large_debt; small_debt])
    by apply perm_swap.
  split; [exact H |]. split; [vm_compute; reflexivity |].
  apply (simulateMinimumPayments_order _ _ H).
Defined.


Lemma nonempty_filter {A : Type} (f : A -> bool) (l : list A) :
  nonempty (filter f l) = existsb f l.
Proof.
  induction l as [| x l IH]; simpl; [reflexivity |].
  destruct (f x); simpl; [reflexivity | exact IH].
Qed.

Lemma existsb_or {A : Type} (f g : A -> bool) (l : list A) :
  existsb f l || existsb g l = existsb (fun x => f x || g x) l.
Proof.
  induction l as [| x l IH]; simpl; [reflexivity |].
  rewrite <- IH. destruct (f x), (g x), (existsb f l), (existsb g l);
    reflexivity.
Qed.

Lemma existsb_analyzed (f : Liability -> bool) (l : list Liability) :
  existsb (fun d => f (debt d)) (debts (analyzeDebts l)) = existsb f l.
Proof.
  rewrite (existsb_perm _ _ _ (analyzeDebts_perm l)).
  induction l as [| x l IH]; simpl; [reflexivity |].
  rewrite IH. reflexivity.
Qed.

(** X27.  Debt is given priority exactly when some liability costs more than the
    investment return or is a credit card. *)
Theorem shouldPrioritizeDebt_iff (liabilities : list Liability)
        (investmentReturn : option Q) :
  prioritizeDebt (shouldPrioritizeDebt liabilities investmentReturn)
  = existsb (fun d =>
               Qlt_bool (dflt investmentReturn 12) (interestRate d)
               || String.eqb (loanType d) "credit-card")
            liabilities.
Proof.
  unfold shouldPrioritizeDebt. cbv zeta.
  rewrite <- existsb_or.
  rewrite <- (existsb_analyzed
                (fun d => Qlt_bool (dflt investmentReturn 12)
                                   (interestRate d)) liabilities).
  rewrite <- (existsb_analyzed
                (fun d => String.eqb (loanType d) "credit-card")
                liabilities).
  rewrite !nonempty_filter.
  destruct liabilities as [| d l]; [reflexivity |].
  cbn [analyzeDebts hasDebt negb].
  destruct (existsb _ _); cbn [prioritizeDebt orb]; [reflexivity |].
  destruct (existsb _ _); reflexivity.
Qed.

Lemma round_near (x : Q) :
  x - (1 # 2) <= inject_Z (round x) /\ inject_Z (round x) <= x + (1 # 2).
Proof.
  unfold round.
  pose proof (Qfloor_le (x + (1 # 2))) as H1.
  pose proof (Qlt_floor (x + (1 # 2))) as H2.
  rewrite inject_Z_plus in H2. change (inject_Z 1) with 1 in H2.
  split; lra.
Qed.

Lemma sum_emi_nonneg (ds : list Analyzed) :
  Forall (fun d => 0 <= emi (debt d)) ds ->
  forall a, 0 <= a -> 0 <= fold_left (fun sum d => sum + emi (debt d)) ds a.
Proof.
  intro H. induction H as [| d ds Hd _ IH]; intros a Ha; simpl.
  - exact Ha.
  - apply IH. lra.
Qed.

(** X28.  For well-formed debts and a surplus that is not negative, neither share
    of [allocateSurplus] is negative, and the two shares add up to the
    surplus to within one unit of rounding. *)
Theorem allocateSurplus_shares (surplus : Q) (liabilities : list Liability)
        (investmentReturn : option Q) :
  Forall well_formed liabilities -> 0 <= surplus ->
  let a := allocateSurplus surplus liabilities investmentReturn in
  0 <= toDebt a /\ 0 <= toGoals a
  /\ surplus - 1 <= toDebt a + toGoals a /\ toDebt a + toGoals a <= surplus + 1.
Proof.
  intros Hwf Hs. cbv zeta. unfold allocateSurplus. cbv zeta.
  destruct (negb (prioritizeDebt _)); cbn [toDebt toGoals].
  - repeat split; lra.
  - set (hi := filter _ (debts (analyzeDebts liabilities))).
    assert (He : 0 <= fold_left (fun sum d => sum + emi (debt d)) hi 0).
    { apply sum_emi_nonneg; [| lra].
      subst hi. apply Forall_forall. intros d Hd.
      apply filter_In in Hd. destruct Hd as [Hd _].
      apply (Permutation_in _ (analyzeDebts_perm liabilities)) in Hd.
      apply in_map_iff in Hd. destruct Hd as (x & <- & Hx).
      rewrite Forall_forall in Hwf. destruct (Hwf x Hx) as (_ & _ & He).
      exact He. }
    set (e := fold_left _ hi 0) in *. clearbody e.
    assert (Hd : 0 <= Qmin surplus (e * (5 # 10))
                 /\ Qmin surplus (e * (5 # 10)) <= surplus).
    { qminmax; split; lra. }
    set (d := Qmin surplus (e * (5 # 10))) in *. clearbody d.
    destruct Hd as [Hd0 Hd1].
    pose proof (round_near d) as [N1 N2].
    pose proof (round_near (surplus - d)) as [N3 N4].
    pose proof (round_nonneg d Hd0) as P1.
    pose proof (round_nonneg (surplus - d) ltac:(lra)) as P2.
    rewrite Zle_Qle in P1, P2. change (inject_Z 0) with 0 in P1, P2.
    repeat split; lra.
Qed.

Lemma allocateSurplus_shares_witness :
  let card := {| name := "card"; principal := 40000; interestRate := 36;
                 emi := 2001; loanType := "credit-card" |} in
  Forall well_formed [card; large_debt] /\ 0 <= 5000
  /\ toDebt (allocateSurplus 5000 [card; large_debt] None) == 1001
  /\ toGoals (allocateSurplus 5000 [card; large_debt] None) == 4000
  /\ toDebt (allocateSurplus 5000 [card; large_debt] None)
     + toGoals (allocateSurplus 5000 [card; large_debt] None) <= 5000 + 1.
Proof.
  cbv zeta.
  assert (Hwf : Forall well_formed
                  [ {| name := "card"; principal := 40000;
                       interestRate := 36; emi := 2001;
                       loanType := "credit-card" |}; large_debt ]).
  { repeat constructor; simpl; lra. }
  split; [exact Hwf |]. split; [lra |].
  split; [vm_compute; reflexivity |]. split; [vm_compute; reflexivity |].
  apply (allocateSurplus_shares 5000 _ None Hwf). lra.
Defined.

(** X29.  When no liability costs more than the investment return, nothing goes
    to debt, even when a credit card has put debt first. *)
Theorem allocateSurplus_no_costly_debt (surplus : Q)
        (liabilities : list Liability) (investmentReturn : option Q) :
  Forall (fun d => interestRate d <= dflt investmentReturn 12) liabilities ->
  0 <= surplus ->
  toDebt (allocateSurplus surplus liabilities investmentReturn) == 0.
Proof.
  intros Hall Hs. unfold allocateSurplus. cbv zeta.
  destruct (negb (prioritizeDebt _)); cbn [toDebt]; [reflexivity |].
  assert (Hf : filter (fun d => Qlt_bool (dflt investmentReturn 12)
                                         (interestRate (debt d)))
                      (debts (analyzeDebts liabilities)) = []).
  { pose proof (nonempty_filter
                  (fun d => Qlt_bool (dflt investmentReturn 12)
                                     (interestRate (debt d)))
                  (debts (analyzeDebts liabilities))) as Hn.
    rewrite (existsb_analyzed
               (fun d => Qlt_bool (dflt investmentReturn 12)
                                  (interestRate d))) in Hn.
    assert (Hx : existsb (fun d => Qlt_bool (dflt investmentReturn 12)
                                            (interestRate d)) liabilities
                 = false).
    { clear Hn. induction Hall as [| d l Hd _ IH]; simpl; [reflexivity |].
      rewrite IH. rewrite orb_false_r. apply Qlt_bool_false. exact Hd. }
    rewrite Hx in Hn. destruct (filter _ _); [reflexivity | discriminate]. }
  rewrite Hf. cbn [fold_left].
  assert (E : round (Qmin surplus (0 * (5 # 10))) = 0%Z).
  { apply round_eq_Z. change (inject_Z 0) with 0. qminmax; lra. }
  rewrite E. reflexivity.
Qed.

Lemma allocateSurplus_no_costly_debt_witness :
  let card := {| name := "card"; principal := 40000; interestRate := 11;
                 emi := 2000; loanType := "credit-card" |} in
  Forall (fun d => interestRate d <= dflt None 12) [card]
  /\ 0 <= 5000
  /\ prioritizeDebt (shouldPrioritizeDebt [card] None) = true
  /\ toDebt (allocateSurplus 5000 [card] None) == 0.
Proof.
  cbv zeta.
  assert (Hall : Forall (fun d => interestRate d <= dflt None 12)
                        [ {| name := "card"; principal := 40000;
                             interestRate := 11; emi := 2000;
                             loanType := "credit-card" |} ]).
  { repeat constructor; simpl; lra. }
  split; [exact Hall |]. split; [lra |]. split; [vm_compute; reflexivity |].
  apply (allocateSurplus_no_costly_debt 5000 _ None Hall). lra.
Defined.

End DebtExtras.

(** ** Loan installment *)

Section StoreExtras.
Import JS Store.

(** X30.  At a zero rate the installment is the principal spread evenly over the
    months; a principal or a tenure that is not positive gives 0. *)
Theorem calculateEMI_zero_rate `{MathPow} (principal annualRate tenureYears : Q) :
  annualRate == 0 ->
  calculateEMI principal annualRate tenureYears
  = if Qle_bool principal 0 || Qle_bool tenureYears 0 then Num 0
    else Num (inject_Z (round (principal / (tenureYears * 12)))).
Proof.
  intro Hr. unfold calculateEMI. cbv zeta.
  destruct (Qle_bool principal 0 || Qle_bool tenureYears 0); [reflexivity |].
  assert (E : Qeq_bool (annualRate / 100 / 12) 0 = true).
  { apply Qeq_bool_iff. rewrite Hr. reflexivity. }
  rewrite E. reflexivity.
Qed.

Lemma calculateEMI_zero_rate_witness :
  0 == 0
  /\ calculateEMI (H := whole_pow) 120000 0 1 = Num (inject_Z 10000).
Proof.
  split; [reflexivity |].
  rewrite (calculateEMI_zero_rate (H := whole_pow) 120000 0 1);
    reflexivity.
Defined.

End StoreExtras.
